(** * Command-surface discovery and cross-repo impact

    A shallow embedding of
    - [apps/backend/project/structure_analyzer.py] (class [StructureAnalyzer]),
    - [apps/backend/context/models.py] (class [MultiRepoContext]),
    together with the properties the specification states about them.

    Python values coming out of the JSON / TOML readers are untyped, so the
    embedding works over a small universe of Python values and an exception
    monad: every operation that Python can refuse ([x in 5], [v.keys()] on a
    list, [[][0]], ...) returns [Raise] with the exception class. *)

From Stdlib Require Import String Ascii.
From stdpp Require Import base option list gmap sets.

Set Warnings "-register-all,-clear-no-such-hyp".
Open Scope Z_scope.

(** ** Python strings

    A Python [str] is a sequence of Unicode code points. *)

Module PyStr.

Definition str := list N.

(** Literals are written as Rocq strings and mapped to code points. *)
Definition u (s : String.string) : str :=
  List.map N_of_ascii (list_ascii_of_string s).

(** [str.isspace] on one code point (CPython's [_PyUnicode_IsWhitespace]);
    this is also what [\s] matches in a [str] pattern and what [str.split()]
    and [str.strip()] treat as separator. *)
Definition is_space (c : N) : bool :=
  ((9 <=? c) && (c <=? 13) || (28 <=? c) && (c <=? 32)
   || (c =? 133) || (c =? 160) || (c =? 5760)
   || (8192 <=? c) && (c <=? 8202)
   || (c =? 8232) || (c =? 8233) || (c =? 8239) || (c =? 8287)
   || (c =? 12288))%N.

(** Line boundaries of [str.splitlines] (CPython's [_PyUnicode_IsLinebreak]). *)
Definition is_linebreak (c : N) : bool :=
  ((10 <=? c) && (c <=? 13) || (28 <=? c) && (c <=? 30)
   || (c =? 133) || (c =? 8232) || (c =? 8233))%N.

Definition eqb (a b : str) : bool := bool_decide (a = b).

(** [s.startswith(p)] *)
Fixpoint startswith (p s : str) : bool :=
  match p, s with
  | [], _ => true
  | _ :: _, [] => false
  | a :: p', b :: s' => (a =? b)%N && startswith p' s'
  end.

(** [p in s] for two strings: substring test. *)
Fixpoint contains (p s : str) : bool :=
  startswith p s ||
  match s with
  | [] => false
  | _ :: s' => contains p s'
  end.

(** [s.splitlines()]: [cur] is the current line, reversed.  A terminator
    closes the current line (["\r\n"] counts once); text after the last
    terminator is a line only when it is not empty. *)
Fixpoint splitlines_from (cur s : str) : list str :=
  match s with
  | [] => match cur with [] => [] | _ => [rev cur] end
  | c :: rest =>
      if is_linebreak c then
        rev cur ::
        match rest with
        | d :: rest' =>
            if (c =? 13)%N && (d =? 10)%N then splitlines_from [] rest'
            else splitlines_from [] rest
        | [] => splitlines_from [] rest
        end
      else splitlines_from (c :: cur) rest
  end.

Definition splitlines (s : str) : list str := splitlines_from [] s.

(** [s.lstrip()], [s.rstrip()], [s.strip()] *)
Fixpoint lstrip (s : str) : str :=
  match s with
  | c :: s' => if is_space c then lstrip s' else s
  | [] => []
  end.

Definition rstrip (s : str) : str := rev (lstrip (rev s)).
Definition strip (s : str) : str := rstrip (lstrip s).

(** [s.split()]: maximal runs of non-space characters. [cur] is the current
    word, reversed. *)
Fixpoint split_from (cur s : str) : list str :=
  match s with
  | [] => match cur with [] => [] | _ => [rev cur] end
  | c :: rest =>
      if is_space c then
        match cur with
        | [] => split_from [] rest
        | _ => rev cur :: split_from [] rest
        end
      else split_from (c :: cur) rest
  end.

Definition split (s : str) : list str := split_from [] s.

End PyStr.

Import PyStr.

(** ** Python values and exceptions *)

(** A [float]: NaN, an infinity, or the finite value [m * 2^e]. *)
Inductive pyfloat : Type :=
  | FNan
  | FInf (negative : bool)
  | FFin (m e : Z).

(** The values [json.load] and the TOML reader can produce. A [dict] keeps
    its insertion order, so it is an association list; its keys are strings
    and, in a parsed document, pairwise distinct. *)
Inductive pyval : Type :=
  | PNone
  | PBool (b : bool)
  | PInt (n : Z)
  | PFloat (f : pyfloat)
  | PStr (s : str)
  | PList (l : list pyval)
  | PDict (d : list (str * pyval)).

Abbreviation pydict := (list (str * pyval)).

(** The exception classes that can escape from the modelled code. *)
Inductive exn : Type :=
  | TypeError
  | AttributeError
  | KeyError
  | IndexError
  | UnicodeDecodeError
  | OSError
  | RecursionError
  | ValueError.

(** The outcome of running a piece of Python: a value, or a raised exception. *)
Inductive outcome (A : Type) : Type :=
  | Ok (a : A)
  | Raise (e : exn).
Arguments Ok {A} a.
Arguments Raise {A} e.

#[global] Instance outcome_ret : MRet outcome := fun A a => Ok a.
#[global] Instance outcome_bind : MBind outcome := fun A B k m =>
  match m with
  | Ok a => k a
  | Raise e => Raise e
  end.

(** [for x in l: body], threading the state and stopping at the first
    exception. *)
Fixpoint for_each {A S : Type} (body : A → S → outcome S) (l : list A) (s : S)
  : outcome S :=
  match l with
  | [] => Ok s
  | x :: l' => s' ← body x s; for_each body l' s'
  end.

Module Py.

(** [d[k]] on the association list, [None] when the key is missing. *)
Fixpoint dict_lookup (k : str) (d : pydict) : option pyval :=
  match d with
  | [] => None
  | (k', v) :: d' => if PyStr.eqb k k' then Some v else dict_lookup k d'
  end.

(** [d[k] = v]: an existing key keeps its position, a new key goes last. *)
Fixpoint dict_set (k : str) (v : pyval) (d : pydict) : pydict :=
  match d with
  | [] => [(k, v)]
  | (k', v') :: d' =>
      if PyStr.eqb k k' then (k', v) :: d' else (k', v') :: dict_set k v d'
  end.

(** [{**base, **extra}]: the entries of [extra] are stored one by one. *)
Definition dict_merge (base extra : pydict) : pydict :=
  fold_left (fun d kv => dict_set kv.1 kv.2 d) extra base.

(** Exact comparison of two floats. *)
Definition float_eq (a b : pyfloat) : bool :=
  match a, b with
  | FNan, FNan => true
  | FInf s, FInf t => bool_decide (s = t)
  | FFin m e, FFin m' e' =>
      let lo := Z.min e e' in
      (m * 2 ^ (e - lo) =? m' * 2 ^ (e' - lo))
  | _, _ => false
  end.

(** The number a [bool], [int] or [float] denotes, as a float. *)
Definition as_number (v : pyval) : option pyfloat :=
  match v with
  | PBool b => Some (FFin (if b then 1 else 0) 0)
  | PInt n => Some (FFin n 0)
  | PFloat f => Some f
  | _ => None
  end.

(** [a == b] as the containers use it ([x in l], [l1 == l2] compare with
    identity first, and the JSON reader returns one NaN object, so NaN
    compares equal to itself here). Numbers compare by value across [bool],
    [int] and [float]; dicts compare regardless of order. *)
Fixpoint eq (a b : pyval) {struct a} : bool :=
  match a, b with
  | PNone, PNone => true
  | PStr s, PStr t => PyStr.eqb s t
  | PList xs, PList ys =>
      (fix all2 (xs ys : list pyval) {struct xs} : bool :=
         match xs, ys with
         | [], [] => true
         | x :: xs', y :: ys' => eq x y && all2 xs' ys'
         | _, _ => false
         end) xs ys
  | PDict xs, PDict ys =>
      (length xs =? length ys)%nat &&
      (fix all (xs : pydict) {struct xs} : bool :=
         match xs with
         | [] => true
         | (k, v) :: xs' =>
             match dict_lookup k ys with
             | Some w => eq v w
             | None => false
             end && all xs'
         end) xs
  | (PBool _ | PInt _ | PFloat _), (PBool _ | PInt _ | PFloat _) =>
      match as_number a, as_number b with
      | Some x, Some y => float_eq x y
      | _, _ => false
      end
  | _, _ => false
  end.

(** [bool(v)] *)
Definition truthy (v : pyval) : bool :=
  match v with
  | PNone => false
  | PBool b => b
  | PInt n => negb (n =? 0)
  | PFloat (FFin m _) => negb (m =? 0)
  | PFloat _ => true
  | PStr s => match s with [] => false | _ => true end
  | PList l => match l with [] => false | _ => true end
  | PDict d => match d with [] => false | _ => true end
  end.

(** [x in l] for a list [l] *)
Definition list_contains (x : pyval) (l : list pyval) : bool :=
  existsb (eq x) l.

(** [k in v] for a string [k]: key of a dict, element of a list, substring of
    a string; anything else is not a container. *)
Definition contains (k : str) (v : pyval) : outcome bool :=
  match v with
  | PDict d => Ok (bool_decide (is_Some (dict_lookup k d)))
  | PList l => Ok (list_contains (PStr k) l)
  | PStr s => Ok (PyStr.contains k s)
  | _ => Raise TypeError
  end.

(** [v[k]] for a string [k] *)
Definition getitem (v : pyval) (k : str) : outcome pyval :=
  match v with
  | PDict d => match dict_lookup k d with Some w => Ok w | None => Raise KeyError end
  | _ => Raise TypeError
  end.

(** [v.get(k, default)] *)
Definition get (v : pyval) (k : str) (dflt : pyval) : outcome pyval :=
  match v with
  | PDict d => Ok (default dflt (dict_lookup k d))
  | _ => Raise AttributeError
  end.

(** [list(v.keys())] *)
Definition keys (v : pyval) : outcome (list str) :=
  match v with
  | PDict d => Ok (d.*1)
  | _ => Raise AttributeError
  end.

(** [v.items()] *)
Definition items (v : pyval) : outcome pydict :=
  match v with
  | PDict d => Ok d
  | _ => Raise AttributeError
  end.

(** What [for x in v] visits: the elements of a list, the keys of a dict,
    the characters of a string. *)
Definition iter (v : pyval) : outcome (list pyval) :=
  match v with
  | PList l => Ok l
  | PDict d => Ok (PStr <$> d.*1)
  | PStr s => Ok ((fun c => PStr [c]) <$> s)
  | _ => Raise TypeError
  end.

(** [l[0]] *)
Definition first {A : Type} (l : list A) : outcome A :=
  match l with
  | x :: _ => Ok x
  | [] => Raise IndexError
  end.

End Py.

(** ** The project directory as the analyzer sees it *)

(** Modelled from the spec: [ConfigParser] ([project/config_parser.py] is not
    part of the sources at hand). The spec describes it as a reader "returning
    parsed JSON, parsed TOML, raw text, and glob-matched file lists for a given
    root directory and filename/pattern, returning an empty/absent result
    rather than failing when a file is missing or unparsable". Its answers are
    taken as given: a record of the five methods the analyzer calls.
    [read_json] and [read_toml] answer [PNone] for a missing or unparsable
    file, [read_text] answers [None]; [glob_files] gives the [.name] of each
    matching path, in the order the reader yields them. *)
Record ConfigParser : Type := {
  read_json : str → pyval;
  read_toml : str → pyval;
  read_text : str → option str;
  file_exists : str → bool;
  glob_files : str → list str
}.

(** What [defaults_path.exists()], and then
    [open(defaults_path, encoding="utf-8")] followed by [json.load], do with
    [.auto-claude/security_defaults.json]. The test on [exists()] stands
    before the [try]; the [except] clause names [OSError] and
    [JSONDecodeError] only. *)
Inductive defaults_file : Type :=
  | DefaultsMissing                (* [defaults_path.exists()] is false *)
  | DefaultsStatError              (* [exists()] itself raises [OSError], as
                                      for a directory that may not be
                                      searched *)
  | DefaultsOSError                (* opening or reading raises [OSError] *)
  | DefaultsJSONDecodeError        (* the text is not JSON *)
  | DefaultsUnicodeDecodeError     (* the bytes are not UTF-8, as in a file
                                      cut inside a multi-byte character *)
  | DefaultsRecursionError         (* the document is nested too deeply *)
  | DefaultsValueError             (* [json.load] raises a plain
                                      [ValueError], as for an integer
                                      literal beyond the digit limit *)
  | DefaultsData (data : pyval).   (* the parsed document *)

Record project : Type := {
  parser : ConfigParser;
  security_defaults : defaults_file
}.

(** The same directory with another [security_defaults.json]. *)
Definition with_defaults (p : project) (d : defaults_file) : project :=
  {| parser := parser p; security_defaults := d |}.

(** Modelled from the spec: [CustomScripts] ([project/models.py] is not part of
    the sources at hand), the spec's ScriptCatalog: one ordered sequence per
    manifest kind, all empty in a fresh instance. The analyzer also keeps
    [mise_tasks] there. Entries merged from the defaults file are arbitrary
    JSON values, so [make_targets] and [mise_tasks] hold Python values. *)
Record CustomScripts : Type := {
  npm_scripts : list str;
  make_targets : list pyval;
  poetry_scripts : list str;
  shell_scripts : list str;
  mise_tasks : list pyval
}.

Definition CustomScripts_new : CustomScripts :=
  {| npm_scripts := []; make_targets := []; poetry_scripts := [];
     shell_scripts := []; mise_tasks := [] |}.

(** The mutable part of a [StructureAnalyzer] instance. *)
Record analyzer : Type := {
  custom_scripts : CustomScripts;
  custom_commands : gset str;
  script_commands : gset str
}.

Module StructureAnalyzer.

Definition CUSTOM_ALLOWLIST_FILENAME : str := u ".auto-claude-allowlist".

(** [__init__] *)
Definition init : analyzer :=
  {| custom_scripts := CustomScripts_new;
     custom_commands := ∅;
     script_commands := ∅ |}.

(** *** Field updates *)

Definition set_npm_scripts (l : list str) (self : analyzer) : analyzer :=
  let c := custom_scripts self in
  {| custom_scripts :=
       {| npm_scripts := l; make_targets := make_targets c;
          poetry_scripts := poetry_scripts c;
          shell_scripts := shell_scripts c; mise_tasks := mise_tasks c |};
     custom_commands := custom_commands self;
     script_commands := script_commands self |}.

Definition set_make_targets (l : list pyval) (self : analyzer) : analyzer :=
  let c := custom_scripts self in
  {| custom_scripts :=
       {| npm_scripts := npm_scripts c; make_targets := l;
          poetry_scripts := poetry_scripts c;
          shell_scripts := shell_scripts c; mise_tasks := mise_tasks c |};
     custom_commands := custom_commands self;
     script_commands := script_commands self |}.

Definition set_poetry_scripts (l : list str) (self : analyzer) : analyzer :=
  let c := custom_scripts self in
  {| custom_scripts :=
       {| npm_scripts := npm_scripts c; make_targets := make_targets c;
          poetry_scripts := l;
          shell_scripts := shell_scripts c; mise_tasks := mise_tasks c |};
     custom_commands := custom_commands self;
     script_commands := script_commands self |}.

Definition set_shell_scripts (l : list str) (self : analyzer) : analyzer :=
  let c := custom_scripts self in
  {| custom_scripts :=
       {| npm_scripts := npm_scripts c; make_targets := make_targets c;
          poetry_scripts := poetry_scripts c;
          shell_scripts := l; mise_tasks := mise_tasks c |};
     custom_commands := custom_commands self;
     script_commands := script_commands self |}.

Definition set_mise_tasks (l : list pyval) (self : analyzer) : analyzer :=
  let c := custom_scripts self in
  {| custom_scripts :=
       {| npm_scripts := npm_scripts c; make_targets := make_targets c;
          poetry_scripts := poetry_scripts c;
          shell_scripts := shell_scripts c; mise_tasks := l |};
     custom_commands := custom_commands self;
     script_commands := script_commands self |}.

(** [self.script_commands.add(c)] *)
Definition add_script_command (c : str) (self : analyzer) : analyzer :=
  {| custom_scripts := custom_scripts self;
     custom_commands := custom_commands self;
     script_commands := {[ c ]} ∪ script_commands self |}.

(** [self.custom_commands.add(c)] *)
Definition add_custom_command (c : str) (self : analyzer) : analyzer :=
  {| custom_scripts := custom_scripts self;
     custom_commands := {[ c ]} ∪ custom_commands self;
     script_commands := script_commands self |}.

(** [a and b] on conditions that may raise: [b] is evaluated only when [a]
    holds. *)
Definition and_then (a b : outcome bool) : outcome bool :=
  x ← a; if x : bool then b else Ok false.

(** *** [_detect_npm_scripts] *)

Definition add_launchers (self : analyzer) : analyzer :=
  add_script_command (u "bun")
    (add_script_command (u "pnpm")
       (add_script_command (u "yarn")
          (add_script_command (u "npm") self))).

Definition _detect_npm_scripts (p : project) (self : analyzer)
  : outcome analyzer :=
  let pkg := read_json (parser p) (u "package.json") in
  has ← and_then (Ok (Py.truthy pkg)) (Py.contains (u "scripts") pkg);
  if has : bool then
    scripts ← Py.getitem pkg (u "scripts");
    names ← Py.keys scripts;
    let self := set_npm_scripts names self in
    Ok (fold_left (fun self _script => add_launchers self)
                  (npm_scripts (custom_scripts self)) self)
  else Ok self.

(** *** [_detect_makefile_targets] *)

Definition is_ident_start (c : N) : bool :=
  ((97 <=? c) && (c <=? 122) || (65 <=? c) && (c <=? 90) || (c =? 95))%N.

Definition is_ident_char (c : N) : bool :=
  (is_ident_start c || (48 <=? c) && (c <=? 57) || (c =? 45))%N.

(** The longest prefix of [s] whose characters satisfy [f], and the rest. *)
Fixpoint span (f : N → bool) (s : str) : str * str :=
  match s with
  | c :: s' =>
      if f c then let '(a, b) := span f s' in (c :: a, b) else ([], s)
  | [] => ([], [])
  end.

(** [re.match(pattern, line)] for the pattern [^(NAME)\s*:] with
    [NAME = [a-zA-Z_][a-zA-Z0-9_-]*], giving [group(1)]: the line must start
    with an identifier, followed by optional white space and a colon.
    Identifier characters, white space and the colon are pairwise disjoint, so
    the only way the pattern can match is with both stars taken greedily. *)
Definition match_target (line : str) : option str :=
  match line with
  | c :: rest =>
      if is_ident_start c then
        let '(name, tail) := span is_ident_char rest in
        match PyStr.lstrip tail with
        | 58%N :: _ => Some (c :: name)
        | _ => None
        end
      else None
  | [] => None
  end.

Definition makefile_line (self : analyzer) (line : str) : analyzer :=
  match match_target line with
  | Some target =>
      if negb (PyStr.startswith (u ".") target) then
        set_make_targets
          (make_targets (custom_scripts self) ++ [PStr target]) self
      else self
  | None => self
  end.

Definition _detect_makefile_targets (p : project) (self : analyzer)
  : outcome analyzer :=
  if negb (file_exists (parser p) (u "Makefile")) then Ok self else
  match read_text (parser p) (u "Makefile") with
  | None | Some [] => Ok self
  | Some content =>
      let self := fold_left makefile_line (PyStr.splitlines content) self in
      match make_targets (custom_scripts self) with
      | [] => Ok self
      | _ => Ok (add_script_command (u "make") self)
      end
  end.

(** *** [_detect_poetry_scripts] *)

Definition _detect_poetry_scripts (p : project) (self : analyzer)
  : outcome analyzer :=
  let toml := read_toml (parser p) (u "pyproject.toml") in
  if negb (Py.truthy toml) then Ok self else
  (* Poetry scripts *)
  has_poetry ← and_then (Py.contains (u "tool") toml)
                        (tool ← Py.getitem toml (u "tool");
                         Py.contains (u "poetry") tool);
  self ← (if has_poetry : bool then
            tool ← Py.getitem toml (u "tool");
            poetry ← Py.getitem tool (u "poetry");
            scripts ← Py.get poetry (u "scripts") (PDict []);
            names ← Py.keys scripts;
            Ok (set_poetry_scripts names self)
          else Ok self);
  (* PEP 621 scripts *)
  has_project ← and_then (Py.contains (u "project") toml)
                         (proj ← Py.getitem toml (u "project");
                          Py.contains (u "scripts") proj);
  if has_project : bool then
    proj ← Py.getitem toml (u "project");
    scripts ← Py.getitem proj (u "scripts");
    names ← Py.keys scripts;
    Ok (set_poetry_scripts
          (poetry_scripts (custom_scripts self) ++ names) self)
  else Ok self.

(** *** [_detect_shell_scripts] *)

Definition shell_script (self : analyzer) (script_name : str) : analyzer :=
  add_script_command (u "./" ++ script_name)
    (set_shell_scripts
       (shell_scripts (custom_scripts self) ++ [script_name]) self).

Definition _detect_shell_scripts (p : project) (self : analyzer)
  : outcome analyzer :=
  Ok (fold_left
        (fun self ext => fold_left shell_script (glob_files (parser p) ext) self)
        [u "*.sh"; u "*.bash"] self).

(** *** [detect_custom_scripts] *)

Definition detect_custom_scripts (p : project) (self : analyzer)
  : outcome analyzer :=
  self ← _detect_npm_scripts p self;
  self ← _detect_makefile_targets p self;
  self ← _detect_poetry_scripts p self;
  _detect_shell_scripts p self.

(** *** [load_custom_allowlist] *)

Definition allowlist_line (self : analyzer) (line : str) : analyzer :=
  let line := PyStr.strip line in
  match line with
  | [] => self
  | _ => if negb (PyStr.startswith (u "#") line)
         then add_custom_command line self
         else self
  end.

Definition load_custom_allowlist (p : project) (self : analyzer)
  : outcome analyzer :=
  match read_text (parser p) CUSTOM_ALLOWLIST_FILENAME with
  | None | Some [] => Ok self
  | Some content =>
      Ok (fold_left allowlist_line (PyStr.splitlines content) self)
  end.

(** *** [_load_security_defaults] *)

Definition merge_make_target (self : analyzer) (target : pyval) : analyzer :=
  if negb (Py.list_contains target (make_targets (custom_scripts self)))
  then set_make_targets (make_targets (custom_scripts self) ++ [target]) self
  else self.

Definition merge_mise_task (self : analyzer) (task : pyval) : analyzer :=
  if negb (Py.list_contains task (mise_tasks (custom_scripts self)))
  then set_mise_tasks (mise_tasks (custom_scripts self) ++ [task]) self
  else self.

(** One value of a category of [validation_commands]. *)
Definition validation_command (cmd : pyval) (self : analyzer)
  : outcome analyzer :=
  match cmd with
  | PStr cmd =>
      (* Extract base command (first word) *)
      base_cmd ← match cmd with
                 | [] => Ok []
                 | _ => Py.first (PyStr.split cmd)
                 end;
      match base_cmd with
      | [] => Ok self
      | _ => Ok (add_custom_command base_cmd self)
      end
  | _ => Ok self
  end.

Definition validation_category (entry : str * pyval) (self : analyzer)
  : outcome analyzer :=
  match entry.2 with
  | PDict commands => for_each validation_command (commands.*2) self
  | _ => Ok self
  end.

(** The body after a successful [json.load]. *)
Definition merge_security_defaults (data : pyval) (self : analyzer)
  : outcome analyzer :=
  (* Load custom scripts section *)
  custom ← Py.get data (u "custom_scripts") (PDict []);
  (* Add make targets from defaults *)
  targets ← Py.get custom (u "make_targets") (PList []);
  visited ← Py.iter targets;
  let self := fold_left merge_make_target visited self in
  let self := if Py.truthy targets
              then add_script_command (u "make") self else self in
  (* Add mise tasks from defaults *)
  tasks ← Py.get custom (u "mise_tasks") (PList []);
  visited ← Py.iter tasks;
  let self := fold_left merge_mise_task visited self in
  let self := if Py.truthy tasks
              then add_script_command (u "mise") self else self in
  (* Load validation commands as custom commands *)
  validation ← Py.get data (u "validation_commands") (PDict []);
  categories ← Py.items validation;
  for_each validation_category categories self.

Definition _load_security_defaults (p : project) (self : analyzer)
  : outcome analyzer :=
  match security_defaults p with
  | DefaultsMissing => Ok self
  | DefaultsStatError => Raise OSError
  | DefaultsOSError | DefaultsJSONDecodeError => Ok self
  | DefaultsUnicodeDecodeError => Raise UnicodeDecodeError
  | DefaultsRecursionError => Raise RecursionError
  | DefaultsValueError => Raise ValueError
  | DefaultsData data => merge_security_defaults data self
  end.

(** *** [analyze] *)

Definition result (self : analyzer) : CustomScripts * gset str * gset str :=
  (custom_scripts self, script_commands self, custom_commands self).

Definition analyze (p : project)
  : outcome (CustomScripts * gset str * gset str) :=
  self ← detect_custom_scripts p init;
  self ← load_custom_allowlist p self;
  self ← _load_security_defaults p self;
  Ok (result self).

(** The state [analyze] has reached when it turns to the defaults file: the
    detectors and the user allowlist have run. *)
Definition gather (p : project) : outcome analyzer :=
  self ← detect_custom_scripts p init;
  load_custom_allowlist p self.

End StructureAnalyzer.

(** ** [MultiRepoContext] *)

Record MultiRepoContext : Type := {
  workspace_root : str;
  repos : pydict;
  dependencies : list (str * list str);
  cross_repo_patterns : pydict;
  worktree_strategy : list (str * str)
}.

Module MultiRepo.

(** [get_dependent_repos] *)
Definition get_dependent_repos (self : MultiRepoContext) (repo_name : str)
  : list str :=
  fold_left
    (fun dependents '(repo, deps) =>
       if bool_decide (repo_name ∈ deps) then dependents ++ [repo]
       else dependents)
    (dependencies self) [].

(** One round of the loop of [get_cross_repo_impact]. *)
Definition impact_step (repo_name : str) (entry : str * pyval)
    (impacts : list pydict) : outcome (list pydict) :=
  let '(pattern_name, pattern_info) := entry in
  involved ← Py.get pattern_info (u "repos") (PList []);
  hit ← Py.contains repo_name involved;
  if hit : bool then
    fields ← Py.items pattern_info;
    Ok (impacts ++ [Py.dict_merge [(u "pattern", PStr pattern_name)] fields])
  else Ok impacts.

(** [get_cross_repo_impact] *)
Definition get_cross_repo_impact (self : MultiRepoContext) (repo_name : str)
  : outcome (list pydict) :=
  for_each (impact_step repo_name) (cross_repo_patterns self) [].

End MultiRepo.

(** ** Vocabulary of the specification *)

Import StructureAnalyzer.

(** The npm-family launchers. *)
Definition launchers : gset str :=
  {[ u "npm"; u "yarn"; u "pnpm"; u "bun" ]}.

(** The commands that the steps after [_detect_npm_scripts] can put into
    [script_commands]: [make], [mise] and one [./<script>] per shell script. *)
Definition later_command (c : str) : Prop :=
  c = u "make" ∨ c = u "mise" ∨ PyStr.startswith (u "./") c = true.

(** How a step after [_detect_npm_scripts] may change the analyzer: the
    package-manager catalog stays, both command sets only grow, what is new in
    [script_commands] is a [later_command], and the build targets change only
    if [make] ends up allowed. *)
Record frame (s s' : analyzer) : Prop := {
  frame_npm :
    npm_scripts (custom_scripts s') = npm_scripts (custom_scripts s);
  frame_script : script_commands s ⊆ script_commands s';
  frame_custom : custom_commands s ⊆ custom_commands s';
  frame_new :
    ∀ c, c ∈ script_commands s' → c ∈ script_commands s ∨ later_command c;
  frame_make :
    make_targets (custom_scripts s') = make_targets (custom_scripts s)
    ∨ u "make" ∈ script_commands s'
}.

(** Only the build targets changed, and they were not emptied. *)
Definition same_but_targets (s s' : analyzer) : Prop :=
  npm_scripts (custom_scripts s') = npm_scripts (custom_scripts s)
  ∧ script_commands s' = script_commands s
  ∧ custom_commands s' = custom_commands s
  ∧ (make_targets (custom_scripts s') = []
     → make_targets (custom_scripts s) = []).

(** A defaults file that exists but cannot be read or parsed. *)
Definition unreadable (d : defaults_file) : Prop :=
  d = DefaultsOSError ∨ d = DefaultsJSONDecodeError.

(** The keys of a dict are pairwise distinct, at this level. *)
Definition distinct_keys (d : pydict) : Prop := NoDup d.*1.

(** A cross-repo pattern record of the expected shape: a dict whose [repos]
    entry, when there is one, is a list. *)
Definition pattern_record (v : pyval) : Prop :=
  match v with
  | PDict d =>
      match Py.dict_lookup (u "repos") d with
      | Some (PList _) | None => True
      | Some _ => False
      end
  | _ => False
  end.

(** The [repos] list of a pattern record, empty when the key is missing. *)
Definition repos_of (v : pyval) : list pyval :=
  match v with
  | PDict d =>
      match Py.dict_lookup (u "repos") d with
      | Some (PList l) => l
      | _ => []
      end
  | _ => []
  end.

(** The queried repository is among the [repos] of the entry. *)
Definition involves (repo_name : str) (entry : str * pyval) : bool :=
  Py.list_contains (PStr repo_name) (repos_of entry.2).

(** The dict reported for one pattern: [{"pattern": name, **record}]. *)
Definition impact_of (entry : str * pyval) : pydict :=
  Py.dict_merge [(u "pattern", PStr entry.1)]
                (match entry.2 with PDict d => d | _ => [] end).

Definition set_cross_repo_patterns (l : pydict) (self : MultiRepoContext)
  : MultiRepoContext :=
  {| workspace_root := workspace_root self; repos := repos self;
     dependencies := dependencies self; cross_repo_patterns := l;
     worktree_strategy := worktree_strategy self |}.

(** ** Sample inputs *)

Module Sample.

Definition nl : str := [10%N].
Definition tab : str := [9%N].

(** A project root holding the given manifests and nothing else. *)
Definition parser_of (package_json pyproject : pyval)
    (makefile allowlist : option str) (sh bash : list str) : ConfigParser :=
  {| read_json f :=
       if PyStr.eqb f (u "package.json") then package_json else PNone;
     read_toml f :=
       if PyStr.eqb f (u "pyproject.toml") then pyproject else PNone;
     read_text f :=
       if PyStr.eqb f (u "Makefile") then makefile
       else if PyStr.eqb f (u ".auto-claude-allowlist") then allowlist
       else None;
     file_exists f :=
       PyStr.eqb f (u "Makefile") && bool_decide (is_Some makefile);
     glob_files pattern :=
       if PyStr.eqb pattern (u "*.sh") then sh
       else if PyStr.eqb pattern (u "*.bash") then bash
       else [] |}.

Definition empty_dir : ConfigParser := parser_of PNone PNone None None [] [].

(** The Makefile of the specification's example. *)
Definition makefile_text : str :=
  u "build:" ++ nl ++
  u ".PHONY: build" ++ nl ++
  u "  test: build" ++ nl ++
  u "lint:" ++ nl ++
  tab ++ u "do-thing" ++ nl.

Definition makefile_project : project :=
  {| parser := parser_of PNone PNone (Some makefile_text) None [] [];
     security_defaults := DefaultsMissing |}.

(** [security_defaults.json] is
    [{"validation_commands": {"go": {"build": "   "}}}]. *)
Definition blank_command_defaults : pyval :=
  PDict [(u "validation_commands",
          PDict [(u "go", PDict [(u "build", PStr (u "   "))])])].

Definition blank_command_project : project :=
  {| parser := empty_dir;
     security_defaults := DefaultsData blank_command_defaults |}.

(** [pyproject.toml] declares one Poetry script, [cli]. *)
Definition poetry_project : project :=
  {| parser :=
       parser_of PNone
         (PDict [(u "tool",
                  PDict [(u "poetry",
                          PDict [(u "scripts",
                                  PDict [(u "cli", PStr (u "pkg:main"))])])])])
         None None [] [];
     security_defaults := DefaultsMissing |}.

(** [package.json] is [{"scripts": {"build": "tsc", "test": "jest"}}], next
    to a Makefile with one target and a shell script. *)
Definition node_project : project :=
  {| parser :=
       parser_of
         (PDict [(u "scripts",
                  PDict [(u "build", PStr (u "tsc"));
                         (u "test", PStr (u "jest"))])])
         PNone (Some (u "all: build" ++ nl)) None [u "run.sh"] [];
     security_defaults := DefaultsMissing |}.

(** [package.json] is [{"name": "app", "scripts": {}}]. *)
Definition no_scripts_project : project :=
  {| parser :=
       parser_of
         (PDict [(u "name", PStr (u "app")); (u "scripts", PDict [])])
         PNone None None [u "run.sh"] [];
     security_defaults := DefaultsMissing |}.

(** A user allowlist and a Makefile, to be combined with a defaults file. *)
Definition allowlist_project : project :=
  {| parser :=
       parser_of PNone PNone (Some (u "build:" ++ nl))
         (Some (u "docker" ++ nl ++ u "# comment" ++ nl ++ nl ++
                u "kubectl" ++ nl))
         [] [];
     security_defaults := DefaultsMissing |}.

(** [security_defaults.json] is
    [{"custom_scripts": {"make_targets": ["build", "deploy"],
                         "mise_tasks": ["mise run all"]},
      "validation_commands": {"go": {"build": "go build ./...", "none": E}}}]
    where [E] is the empty string. *)
Definition workspace_defaults : pyval :=
  PDict [(u "custom_scripts",
          PDict [(u "make_targets",
                  PList [PStr (u "build"); PStr (u "deploy")]);
                 (u "mise_tasks", PList [PStr (u "mise run all")])]);
         (u "validation_commands",
          PDict [(u "go",
                  PDict [(u "build", PStr (u "go build ./..."));
                         (u "none", PStr [])])])].

Definition context_of (patterns : pydict) : MultiRepoContext :=
  {| workspace_root := u "/ws"; repos := []; dependencies := [];
     cross_repo_patterns := patterns; worktree_strategy := [] |}.

(** The [cross_repo_patterns] of the specification's example. *)
Definition auth_billing : pydict :=
  [(u "auth-flow",
    PDict [(u "repos", PList [PStr (u "core"); PStr (u "web")])]);
   (u "billing", PDict [(u "repos", PList [PStr (u "api")])])].

(** A record that carries a [pattern] key of its own, and one without
    [repos]. *)
Definition named_patterns : pydict :=
  [(u "auth-flow",
    PDict [(u "pattern", PStr (u "oauth"));
           (u "repos", PList [PStr (u "core")])]);
   (u "notes", PDict [(u "owner", PStr (u "team"))])].

End Sample.

(** ** Further vocabulary *)

(** A name as the Makefile pattern captures it: a letter or underscore, then
    letters, digits, underscores and hyphens. *)
Definition is_identifier (t : str) : bool :=
  match t with
  | c :: r => is_ident_start c && forallb is_ident_char r
  | [] => false
  end.

(** Not empty, and no white space at either end. *)
Definition trimmed (c : str) : Prop :=
  c ≠ []
  ∧ (∀ x, head c = Some x → PyStr.is_space x = false)
  ∧ (∀ x, last c = Some x → PyStr.is_space x = false).

(** No white space anywhere. *)
Definition spaceless (c : str) : Prop :=
  forallb (fun x => negb (PyStr.is_space x)) c = true.

(** Every allowed script command satisfies [R] and every custom command
    satisfies [Q]. *)
Definition respects (R Q : str → Prop) (s : analyzer) : Prop :=
  (∀ x, x ∈ script_commands s → R x) ∧ (∀ c, c ∈ custom_commands s → Q c).

(** The names of the shell scripts in the project root, [*.sh] first. *)
Definition shell_script_names (p : project) : list str :=
  glob_files (parser p) (u "*.sh") ++ glob_files (parser p) (u "*.bash").

(** The parts of an analyzer a step is allowed to change. *)
Record parts : Type := {
  in_npm : bool; in_make : bool; in_poetry : bool; in_shell : bool;
  in_mise : bool; in_script : bool; in_custom : bool
}.

(** [s'] differs from [s] at most in the parts named by [may]. *)
Definition untouched (may : parts) (s s' : analyzer) : Prop :=
  (in_npm may = false →
   npm_scripts (custom_scripts s') = npm_scripts (custom_scripts s))
  ∧ (in_make may = false →
     make_targets (custom_scripts s') = make_targets (custom_scripts s))
  ∧ (in_poetry may = false →
     poetry_scripts (custom_scripts s') = poetry_scripts (custom_scripts s))
  ∧ (in_shell may = false →
     shell_scripts (custom_scripts s') = shell_scripts (custom_scripts s))
  ∧ (in_mise may = false →
     mise_tasks (custom_scripts s') = mise_tasks (custom_scripts s))
  ∧ (in_script may = false → script_commands s' = script_commands s)
  ∧ (in_custom may = false → custom_commands s' = custom_commands s).

Definition only_npm : parts :=
  {| in_npm := true; in_make := false; in_poetry := false;
     in_shell := false; in_mise := false; in_script := true;
     in_custom := false |}.
Definition only_make : parts :=
  {| in_npm := false; in_make := true; in_poetry := false;
     in_shell := false; in_mise := false; in_script := true;
     in_custom := false |}.
Definition only_poetry : parts :=
  {| in_npm := false; in_make := false; in_poetry := true;
     in_shell := false; in_mise := false; in_script := false;
     in_custom := false |}.
Definition only_shell : parts :=
  {| in_npm := false; in_make := false; in_poetry := false;
     in_shell := true; in_mise := false; in_script := true;
     in_custom := false |}.
Definition only_custom : parts :=
  {| in_npm := false; in_make := false; in_poetry := false;
     in_shell := false; in_mise := false; in_script := false;
     in_custom := true |}.
Definition only_defaults : parts :=
  {| in_npm := false; in_make := true; in_poetry := false;
     in_shell := false; in_mise := true; in_script := true;
     in_custom := true |}.

(** ** Further sample inputs *)

Module More.

(** [package.json] is [{"scripts": "build"}]. *)
Definition scripts_string_project : project :=
  {| parser :=
       Sample.parser_of (PDict [(u "scripts", PStr (u "build"))])
         PNone None None [] [];
     security_defaults := DefaultsMissing |}.

(** [pyproject.toml] declares [cli] under [tool.poetry.scripts] and [cli],
    [srv] under [project.scripts]. *)
Definition dual_scripts : pydict :=
  [(u "tool",
    PDict [(u "poetry",
            PDict [(u "scripts", PDict [(u "cli", PStr (u "a:main"))])])]);
   (u "project",
    PDict [(u "scripts",
            PDict [(u "cli", PStr (u "a:main"));
                   (u "srv", PStr (u "a:serve"))])])].

Definition dual_scripts_project : project :=
  {| parser := Sample.parser_of PNone (PDict dual_scripts) None None [] [];
     security_defaults := DefaultsMissing |}.

(** The analyzer of [Sample.allowlist_project] before and after the merge of
    [Sample.workspace_defaults]. *)
Definition gathered : analyzer :=
  {| custom_scripts :=
       {| npm_scripts := []; make_targets := [PStr (u "build")];
          poetry_scripts := []; shell_scripts := []; mise_tasks := [] |};
     custom_commands := {[ u "docker"; u "kubectl" ]};
     script_commands := {[ u "make" ]} |}.

Definition merged : analyzer :=
  {| custom_scripts :=
       {| npm_scripts := [];
          make_targets := [PStr (u "build"); PStr (u "deploy")];
          poetry_scripts := []; shell_scripts := [];
          mise_tasks := [PStr (u "mise run all")] |};
     custom_commands := {[ u "docker"; u "kubectl"; u "go" ]};
     script_commands := {[ u "make"; u "mise" ]} |}.

End More.

(** ** The shape of a defaults document *)

(** What a [for] loop accepts. *)
Definition iterable (v : pyval) : Prop :=
  match v with
  | PList _ | PDict _ | PStr _ => True
  | _ => False
  end.

(** A value of a validation category that the merge can digest: anything that
    is not a string, the empty string, or a string with at least one
    character that is not white space. *)
Definition digestible_command (v : pyval) : Prop :=
  match v with
  | PStr (c :: cmd) =>
      existsb (fun x => negb (PyStr.is_space x)) (c :: cmd) = true
  | _ => True
  end.

Definition digestible_category (v : pyval) : Prop :=
  match v with
  | PDict commands => Forall digestible_command commands.*2
  | _ => True
  end.

(** A defaults document the merge goes through without raising: an object
    whose [custom_scripts], when present, is an object with iterable
    [make_targets] and [mise_tasks], and whose [validation_commands], when
    present, is an object of digestible categories. *)
Definition well_shaped_defaults (data : pyval) : Prop :=
  match data with
  | PDict d =>
      match Py.dict_lookup (u "custom_scripts") d with
      | None => True
      | Some (PDict custom) =>
          from_option iterable True
            (Py.dict_lookup (u "make_targets") custom)
          ∧ from_option iterable True
              (Py.dict_lookup (u "mise_tasks") custom)
      | Some _ => False
      end
      ∧ match Py.dict_lookup (u "validation_commands") d with
        | None => True
        | Some (PDict categories) =>
            Forall digestible_category categories.*2
        | Some _ => False
        end
  | _ => False
  end.

(** The analyzer after the two catalog loops of the defaults merge, before
    the validation commands are read. *)
Definition merged_catalogs (targets : pyval) (visited : list pyval)
    (tasks : pyval) (visited' : list pyval) (s : analyzer) : analyzer :=
  let s1 := fold_left merge_make_target visited s in
  let s2 := if Py.truthy targets
            then add_script_command (u "make") s1 else s1 in
  let s3 := fold_left merge_mise_task visited' s2 in
  if Py.truthy tasks then add_script_command (u "mise") s3 else s3.

(** [make] is allowed exactly when there are build targets, and [mise]
    exactly when there are mise tasks. *)
Definition tools_match_catalogs (s : analyzer) : Prop :=
  (u "make" ∈ script_commands s ↔ make_targets (custom_scripts s) ≠ [])
  ∧ (u "mise" ∈ script_commands s ↔ mise_tasks (custom_scripts s) ≠ []).

(** * Properties *)

(** ** The exception monad and the loops *)

Lemma bind_Ok {A B : Type} (m : outcome A) (k : A → outcome B) (b : B) :
  m ≫= k = Ok b → ∃ a, m = Ok a ∧ k a = Ok b.
Proof. destruct m as [a|e]; simpl; [eauto | discriminate]. Qed.

(** Takes a hypothesis [... = Ok _] apart along binds and conditionals. *)
Ltac inv_ok :=
  repeat match goal with
  | H : Ok _ = Ok _ |- _ => injection H as H; try subst
  | H : Raise _ = Ok _ |- _ => discriminate H
  | H : _ ≫= _ = Ok _ |- _ =>
      let a := fresh "a" in let Ha := fresh "Ha" in
      apply bind_Ok in H as (a & Ha & H)
  | H : (if ?b then _ else _) = Ok _ |- _ =>
      let E := fresh "E" in destruct b eqn:E
  end.

Lemma fold_left_invariant {A S : Type} (P : S → Prop) (f : S → A → S) l s :
  (∀ s x, P s → P (f s x)) → P s → P (fold_left f l s).
Proof. intros Hf. revert s. induction l; simpl; auto. Qed.

Lemma for_each_invariant {A S : Type} (P : S → Prop)
    (body : A → S → outcome S) l s s' :
  (∀ x s s', P s → body x s = Ok s' → P s') →
  P s → for_each body l s = Ok s' → P s'.
Proof.
  intros Hb. revert s. induction l as [|x l IH]; simpl; intros s Hs H.
  - by inv_ok.
  - inv_ok. eauto.
Qed.

Lemma for_each_cons {A S : Type} (body : A → S → outcome S) x l s :
  for_each body (x :: l) s = body x s ≫= for_each body l.
Proof. reflexivity. Qed.

Lemma for_each_app {A S : Type} (body : A → S → outcome S) l1 l2 s :
  for_each body (l1 ++ l2) s = for_each body l1 s ≫= for_each body l2.
Proof.
  revert s. induction l1 as [|x l1 IH]; simpl; intros s; [done|].
  destruct (body x s); simpl; auto.
Qed.

(** ** Strings and Python values *)

Lemma eqb_eq (a b : str) : PyStr.eqb a b = true ↔ a = b.
Proof. unfold PyStr.eqb. apply bool_decide_eq_true. Qed.

Lemma eqb_refl (a : str) : PyStr.eqb a a = true.
Proof. by apply eqb_eq. Qed.

Lemma eqb_neq (a b : str) : a ≠ b → PyStr.eqb a b = false.
Proof. unfold PyStr.eqb. apply bool_decide_eq_false. Qed.

(** A loop over a value runs at least once only if the value is truthy. *)
Lemma iter_truthy v l : Py.iter v = Ok l → l ≠ [] → Py.truthy v = true.
Proof.
  destruct v as [| | | |s|l'|d]; simpl; intros [= <-] Hl;
    first [by destruct l' | by destruct s | by destruct d].
Qed.

(** ** Steps only add *)

Lemma frame_refl s : frame s s.
Proof. split; auto. Qed.

Lemma frame_trans s1 s2 s3 : frame s1 s2 → frame s2 s3 → frame s1 s3.
Proof.
  intros [N1 S1 C1 W1 M1] [N2 S2 C2 W2 M2]. split.
  - congruence.
  - by etrans.
  - by etrans.
  - intros c Hc. destruct (W2 c Hc) as [H|H]; auto.
  - destruct M2 as [M2|M2]; [|auto].
    destruct M1 as [M1|M1]; [left; congruence | right; auto].
Qed.

Lemma frame_add_script c s :
  later_command c → frame s (add_script_command c s).
Proof.
  intros Hc. split; simpl; auto.
  - apply union_subseteq_r.
  - intros x [->%elem_of_singleton|Hx]%elem_of_union; auto.
Qed.

Lemma frame_add_custom c s : frame s (add_custom_command c s).
Proof. split; simpl; auto. apply union_subseteq_r. Qed.

Lemma frame_set_poetry l s : frame s (set_poetry_scripts l s).
Proof. split; simpl; auto. Qed.

Lemma frame_set_shell l s : frame s (set_shell_scripts l s).
Proof. split; simpl; auto. Qed.

Lemma frame_set_mise l s : frame s (set_mise_tasks l s).
Proof. split; simpl; auto. Qed.

(** A loop whose rounds are framed is framed. *)
Lemma frame_fold {A : Type} (f : analyzer → A → analyzer) l s :
  (∀ s x, frame s (f s x)) → frame s (fold_left f l s).
Proof.
  intros Hf. apply (fold_left_invariant (frame s)); [|apply frame_refl].
  intros s' x Hs'. eapply frame_trans; eauto.
Qed.

Lemma frame_for_each {A : Type} (body : A → analyzer → outcome analyzer)
    l s s' :
  (∀ x s s', body x s = Ok s' → frame s s') →
  for_each body l s = Ok s' → frame s s'.
Proof.
  intros Hb. apply (for_each_invariant (frame s)); [|apply frame_refl].
  intros x s1 s2 Hs1 H. eapply frame_trans; eauto.
Qed.

Lemma same_but_targets_refl s : same_but_targets s s.
Proof. by repeat split. Qed.

Lemma same_but_targets_append s s' t :
  same_but_targets s s' →
  same_but_targets s
    (set_make_targets (make_targets (custom_scripts s') ++ [t]) s').
Proof.
  intros (Hn & Hs & Hc & Hm). repeat split; simpl; auto.
  intros H. by apply app_eq_nil in H as [_ ?].
Qed.

Lemma makefile_lines_same lines s :
  same_but_targets s (fold_left makefile_line lines s).
Proof.
  apply (fold_left_invariant (same_but_targets s));
    [|apply same_but_targets_refl].
  intros s' line Hs'. unfold makefile_line.
  destruct (match_target line) as [target|]; [|done].
  destruct (negb _); [|done]. by apply same_but_targets_append.
Qed.

Lemma merge_targets_same visited s :
  same_but_targets s (fold_left merge_make_target visited s).
Proof.
  apply (fold_left_invariant (same_but_targets s));
    [|apply same_but_targets_refl].
  intros s' t Hs'. unfold merge_make_target.
  destruct (negb _); [|done]. by apply same_but_targets_append.
Qed.

(** Build targets followed by the decision to allow [make]. *)
Lemma frame_targets_then_make s s' :
  same_but_targets s s' →
  frame s (match make_targets (custom_scripts s') with
           | [] => s'
           | _ => add_script_command (u "make") s'
           end).
Proof.
  intros (Hn & Hs & Hc & Hm).
  destruct (make_targets (custom_scripts s')) as [|t ts] eqn:E.
  - split; try rewrite Hs; try rewrite Hc; auto.
    left. rewrite E. symmetry. auto.
  - split; simpl; try rewrite Hs; try rewrite Hc; auto.
    + apply union_subseteq_r.
    + intros c [->%elem_of_singleton|Hx]%elem_of_union; auto.
      right. by left.
    + right. apply elem_of_union_l. by apply elem_of_singleton.
Qed.

Lemma frame_makefile p s s' :
  _detect_makefile_targets p s = Ok s' → frame s s'.
Proof.
  unfold _detect_makefile_targets.
  destruct (negb _); [intros [= <-]; apply frame_refl|].
  destruct (read_text _ _) as [[|c content]|];
    try (intros [= <-]; apply frame_refl).
  intros H.
  pose proof (frame_targets_then_make s _
                (makefile_lines_same (PyStr.splitlines (c :: content)) s)) as F.
  destruct (make_targets _); injection H as <-; exact F.
Qed.

Lemma frame_poetry p s s' :
  _detect_poetry_scripts p s = Ok s' → frame s s'.
Proof.
  unfold _detect_poetry_scripts, and_then. intros H. inv_ok;
    repeat first [apply frame_refl | apply frame_set_poetry
                 | eapply frame_trans; [|apply frame_set_poetry]].
Qed.

Lemma poetry_script_commands p s s' :
  _detect_poetry_scripts p s = Ok s' →
  script_commands s' = script_commands s.
Proof.
  unfold _detect_poetry_scripts, and_then. intros H. by inv_ok.
Qed.

Lemma later_command_script name : later_command (u "./" ++ name).
Proof. right. right. reflexivity. Qed.

Lemma frame_shell p s s' : _detect_shell_scripts p s = Ok s' → frame s s'.
Proof.
  assert (∀ names s0, frame s0 (fold_left shell_script names s0)) as F.
  { intros names s0. apply frame_fold. intros s1 name. unfold shell_script.
    eapply frame_trans; [apply frame_set_shell|].
    apply frame_add_script, later_command_script. }
  unfold _detect_shell_scripts. simpl. intros [= <-].
  eapply frame_trans; apply F.
Qed.

Lemma frame_allowlist p s s' : load_custom_allowlist p s = Ok s' → frame s s'.
Proof.
  unfold load_custom_allowlist.
  destruct (read_text _ _) as [[|c content]|];
    intros [= <-]; try apply frame_refl.
  apply frame_fold. intros s1 line. unfold allowlist_line.
  destruct (PyStr.strip line); [apply frame_refl|].
  destruct (negb _); [apply frame_add_custom | apply frame_refl].
Qed.

Lemma frame_merge_targets targets visited s :
  Py.iter targets = Ok visited →
  frame s (let s1 := fold_left merge_make_target visited s in
           if Py.truthy targets then add_script_command (u "make") s1
           else s1).
Proof.
  intros Hit. simpl. destruct (Py.truthy targets) eqn:T.
  - destruct (merge_targets_same visited s) as (Hn & Hs & Hc & _).
    split; simpl; try rewrite Hs; try rewrite Hc; auto.
    + apply union_subseteq_r.
    + intros c [->%elem_of_singleton|Hx]%elem_of_union; auto.
      right. by left.
    + right. apply elem_of_union_l. by apply elem_of_singleton.
  - destruct visited as [|t ts]; [apply frame_refl|].
    rewrite (iter_truthy _ _ Hit) in T; done.
Qed.

Lemma frame_merge_tasks tasks visited s :
  frame s (let s1 := fold_left merge_mise_task visited s in
           if Py.truthy tasks then add_script_command (u "mise") s1
           else s1).
Proof.
  assert (frame s (fold_left merge_mise_task visited s)) as F.
  { apply frame_fold. intros s1 t. unfold merge_mise_task.
    destruct (negb _); [apply frame_set_mise | apply frame_refl]. }
  simpl. destruct (Py.truthy tasks); [|done].
  eapply frame_trans; [exact F|].
  apply frame_add_script. right. by left.
Qed.

Lemma frame_validation_command cmd s s' :
  validation_command cmd s = Ok s' → frame s s'.
Proof.
  unfold validation_command. destruct cmd; try (intros [= <-]; apply frame_refl).
  intros H. apply bind_Ok in H as (base_cmd & _ & H).
  destruct base_cmd; injection H as <-;
    [apply frame_refl | apply frame_add_custom].
Qed.

Lemma frame_validation_category entry s s' :
  validation_category entry s = Ok s' → frame s s'.
Proof.
  unfold validation_category.
  destruct entry.2; try (intros [= <-]; apply frame_refl).
  apply frame_for_each. intros cmd. apply frame_validation_command.
Qed.

Lemma frame_merge_defaults data s s' :
  merge_security_defaults data s = Ok s' → frame s s'.
Proof.
  unfold merge_security_defaults. intros H.
  apply bind_Ok in H as (custom & _ & H).
  apply bind_Ok in H as (targets & _ & H).
  apply bind_Ok in H as (visited & Hit & H).
  apply bind_Ok in H as (tasks & _ & H).
  apply bind_Ok in H as (visited' & _ & H).
  apply bind_Ok in H as (validation & _ & H).
  apply bind_Ok in H as (categories & _ & H).
  eapply frame_trans; [apply (frame_merge_targets _ _ _ Hit)|].
  eapply frame_trans; [apply (frame_merge_tasks tasks visited')|].
  revert H. apply frame_for_each. intros entry.
  apply frame_validation_category.
Qed.

Lemma frame_defaults p s s' :
  _load_security_defaults p s = Ok s' → frame s s'.
Proof.
  unfold _load_security_defaults.
  destruct (security_defaults p);
    try (intros [= <-]; apply frame_refl); try discriminate.
  apply frame_merge_defaults.
Qed.

(** ** The package-manager step *)

Lemma fold_launchers_fields {A : Type} (l : list A) s :
  let s' := fold_left (fun self _ => add_launchers self) l s in
  custom_scripts s' = custom_scripts s
  ∧ custom_commands s' = custom_commands s
  ∧ script_commands s ⊆ script_commands s'
  ∧ (l ≠ [] → launchers ⊆ script_commands s').
Proof.
  simpl. revert s. induction l as [|x l IH]; intros s; simpl.
  - repeat split; auto. done.
  - destruct (IH (add_launchers s)) as (Hc & Hk & Hs & Hl).
    rewrite Hc, Hk. repeat split; auto.
    + etrans; [|exact Hs]. simpl. set_solver.
    + intros _. etrans; [|exact Hs]. unfold launchers. simpl. set_solver.
Qed.

Lemma Ok_inj {A : Type} (a b : A) : Ok a = Ok b → a = b.
Proof. by intros [= ->]. Qed.

Lemma npm_step_scripts p s pkg scripts :
  read_json (parser p) (u "package.json") = PDict pkg →
  Py.dict_lookup (u "scripts") pkg = Some (PDict scripts) →
  _detect_npm_scripts p s
  = Ok (fold_left (fun self _ => add_launchers self) scripts.*1
                  (set_npm_scripts scripts.*1 s)).
Proof.
  intros Hpkg Hscripts. unfold _detect_npm_scripts. rewrite Hpkg.
  assert (Py.truthy (PDict pkg) = true) as ->
    by (destruct pkg; [discriminate Hscripts | done]).
  unfold and_then. simpl. rewrite Hscripts. simpl.
  done.
Qed.

(** ** The run as a whole *)

Lemma frame_after_npm p s1 s2 s3 s4 s5 s6 :
  _detect_makefile_targets p s1 = Ok s2 →
  _detect_poetry_scripts p s2 = Ok s3 →
  _detect_shell_scripts p s3 = Ok s4 →
  load_custom_allowlist p s4 = Ok s5 →
  _load_security_defaults p s5 = Ok s6 →
  frame s1 s6.
Proof.
  intros Hm Hp Hs Ha Hd.
  eapply frame_trans; [eapply frame_makefile; eauto|].
  eapply frame_trans; [eapply frame_poetry; eauto|].
  eapply frame_trans; [eapply frame_shell; eauto|].
  eapply frame_trans; [eapply frame_allowlist; eauto|].
  eapply frame_defaults; eauto.
Qed.

Lemma analyze_steps p c s k :
  analyze p = Ok (c, s, k) →
  ∃ s1 s6, _detect_npm_scripts p init = Ok s1 ∧ frame s1 s6
           ∧ result s6 = (c, s, k).
Proof.
  unfold analyze, detect_custom_scripts. intros H.
  apply bind_Ok in H as (s4 & Hdet & H).
  apply bind_Ok in Hdet as (s1 & E1 & Hdet).
  apply bind_Ok in Hdet as (s2 & E2 & Hdet).
  apply bind_Ok in Hdet as (s3 & E3 & E4).
  apply bind_Ok in H as (s5 & E5 & H).
  apply bind_Ok in H as (s6 & E6 & R%Ok_inj).
  exists s1, s6. split_and!; auto.
  eapply frame_after_npm; eauto.
Qed.

Lemma analyze_gather p :
  analyze p
  = (self ← gather p; self ← _load_security_defaults p self; Ok (result self)).
Proof.
  unfold analyze, gather. by destruct (detect_custom_scripts p init).
Qed.

Lemma gather_with_defaults p d : gather (with_defaults p d) = gather p.
Proof. reflexivity. Qed.

Lemma launcher_not_later c : c ∈ launchers → ¬ later_command c.
Proof.
  unfold launchers. rewrite !elem_of_union, !elem_of_singleton.
  intros [[[-> | ->] | ->] | ->] [H | [H | H]]; vm_compute in H; discriminate.
Qed.

(** What [_detect_npm_scripts] leaves behind in a fresh analyzer. *)
Lemma npm_step_init p s1 :
  _detect_npm_scripts p init = Ok s1 →
  make_targets (custom_scripts s1) = []
  ∧ (npm_scripts (custom_scripts s1) ≠ [] → launchers ⊆ script_commands s1)
  ∧ (npm_scripts (custom_scripts s1) = [] → script_commands s1 = ∅).
Proof.
  unfold _detect_npm_scripts. intros H.
  apply bind_Ok in H as (has & _ & H). destruct has.
  - apply bind_Ok in H as (scripts & _ & H).
    apply bind_Ok in H as (names & _ & H).
    apply Ok_inj in H. subst s1. simpl.
    pose proof (fold_launchers_fields names (set_npm_scripts names init))
      as (Hc & _ & _ & Hl).
    simpl in Hc, Hl. rewrite Hc. simpl. split_and!; auto.
    by intros ->.
  - apply Ok_inj in H. by subst s1.
Qed.

(** ** Claims about [StructureAnalyzer] *)

(** A command that is empty is skipped without any effect. *)
Lemma empty_command_skipped self :
  validation_command (PStr []) self = Ok self.
Proof. reflexivity. Qed.

(** A command made of white space only: [cmd] is truthy, [cmd.split()] is
    empty, and taking its first element raises. *)
Lemma blank_command_raises c cmd self :
  forallb PyStr.is_space (c :: cmd) = true →
  validation_command (PStr (c :: cmd)) self = Raise IndexError.
Proof.
  intros H. unfold validation_command.
  assert (∀ s, forallb PyStr.is_space s = true → PyStr.split_from [] s = [])
    as Hsplit.
  { induction s as [|x s IH]; simpl; [done|].
    intros [-> ?]%andb_true_iff. auto. }
  unfold PyStr.split. by rewrite Hsplit.
Qed.

(** C1. A [security_defaults.json] whose [validation_commands] holds the
    command string of three blanks is not skipped: [analyze] raises
    [IndexError] and returns nothing, whereas the claim has the string skipped
    and the data gathered so far returned. *)
Theorem blank_validation_command_escapes :
  analyze Sample.blank_command_project = Raise IndexError.
Proof. vm_compute. reflexivity. Qed.

(** C2, as the code has it. After a run that returns, a non-empty
    package-manager catalog comes with the four npm-family launchers in
    [scriptCommands], and a non-empty build-target catalog comes with [make];
    the task-runner step leaves [scriptCommands] as it found it. *)
Theorem launchers_follow_catalogs p c s k :
  analyze p = Ok (c, s, k) →
  (npm_scripts c ≠ [] →
   u "npm" ∈ s ∧ u "yarn" ∈ s ∧ u "pnpm" ∈ s ∧ u "bun" ∈ s)
  ∧ (make_targets c ≠ [] → u "make" ∈ s)
  ∧ (∀ self self', _detect_poetry_scripts p self = Ok self' →
                   script_commands self' = script_commands self).
Proof.
  intros (s1 & s6 & Hnpm & F & [= <- <- <-])%analyze_steps.
  destruct (npm_step_init _ _ Hnpm) as (Hm & Hl & _).
  split_and!.
  - rewrite (frame_npm _ _ F). intros L%Hl.
    pose proof (frame_script _ _ F) as S. unfold launchers in L.
    clear -L S. set_solver.
  - intros Hne. destruct (frame_make _ _ F) as [E|]; [|done].
    exfalso. apply Hne. by rewrite E.
  - intros self self'. apply poetry_script_commands.
Qed.

Lemma launchers_follow_catalogs_witness :
  analyze Sample.node_project
  = Ok ({| npm_scripts := [u "build"; u "test"];
           make_targets := [PStr (u "all")];
           poetry_scripts := [];
           shell_scripts := [u "run.sh"];
           mise_tasks := [] |},
        {[ u "npm"; u "yarn"; u "pnpm"; u "bun"; u "make"; u "./run.sh" ]},
        ∅)
  ∧ u "npm" ∈ ({[ u "npm"; u "yarn"; u "pnpm"; u "bun"; u "make";
                  u "./run.sh" ]} : gset str)
  ∧ u "make" ∈ ({[ u "npm"; u "yarn"; u "pnpm"; u "bun"; u "make";
                   u "./run.sh" ]} : gset str).
Proof.
  assert (analyze Sample.node_project
          = Ok ({| npm_scripts := [u "build"; u "test"];
                   make_targets := [PStr (u "all")];
                   poetry_scripts := [];
                   shell_scripts := [u "run.sh"];
                   mise_tasks := [] |},
                {[ u "npm"; u "yarn"; u "pnpm"; u "bun"; u "make";
                   u "./run.sh" ]},
                ∅)) as H by (vm_compute; reflexivity).
  destruct (launchers_follow_catalogs _ _ _ _ H) as (Hn & Hm & _).
  split; [exact H|]. split.
  - apply Hn. discriminate.
  - apply Hm. discriminate.
Defined.

(** C2, as stated, fails: a project whose only manifest declares one Poetry
    script gets a non-empty task-runner catalog and an empty
    [scriptCommands]. *)
Lemma poetry_scripts_without_launcher :
  analyze Sample.poetry_project
  = Ok ({| npm_scripts := []; make_targets := [];
           poetry_scripts := [u "cli"];
           shell_scripts := []; mise_tasks := [] |}, ∅, ∅)
  ∧ ¬ (∀ c s k, analyze Sample.poetry_project = Ok (c, s, k) →
                poetry_scripts c ≠ [] → u "poetry" ∈ s).
Proof.
  assert (analyze Sample.poetry_project
          = Ok ({| npm_scripts := []; make_targets := [];
                   poetry_scripts := [u "cli"];
                   shell_scripts := []; mise_tasks := [] |}, ∅, ∅)) as H
    by (vm_compute; reflexivity).
  split; [exact H|]. intros Hclaim.
  specialize (Hclaim _ _ _ H). simpl in Hclaim.
  apply (not_elem_of_empty (C := gset str) (u "poetry")).
  apply Hclaim. discriminate.
Qed.

(** C3, as the code has it. For the Makefile of the example the catalog is
    [build] and [lint], in this order, and [make] is allowed: the pattern is
    anchored at the start of the line, so a line that begins with a blank or a
    tab declares no target, whatever follows. *)
Theorem makefile_example_targets :
  (∃ s k, analyze Sample.makefile_project
          = Ok ({| npm_scripts := [];
                   make_targets := [PStr (u "build"); PStr (u "lint")];
                   poetry_scripts := []; shell_scripts := [];
                   mise_tasks := [] |}, s, k)
          ∧ u "make" ∈ s)
  ∧ ∀ rest, match_target (32%N :: rest) = None
            ∧ match_target (9%N :: rest) = None.
Proof.
  split.
  - exists {[ u "make" ]}, ∅. split.
    + vm_compute. reflexivity.
    + by apply elem_of_singleton.
  - intros rest. split; reflexivity.
Qed.

(** C3, as stated, fails: the indented line [  test: build] contributes no
    target, so the catalog is not [build], [test], [lint]. *)
Lemma makefile_example_indented_line_skipped :
  analyze Sample.makefile_project
  = Ok ({| npm_scripts := [];
           make_targets := [PStr (u "build"); PStr (u "lint")];
           poetry_scripts := []; shell_scripts := []; mise_tasks := [] |},
        {[ u "make" ]}, ∅)
  ∧ ¬ (∃ c s k, analyze Sample.makefile_project = Ok (c, s, k)
                ∧ make_targets c
                  = [PStr (u "build"); PStr (u "test"); PStr (u "lint")]).
Proof.
  assert (analyze Sample.makefile_project
          = Ok ({| npm_scripts := [];
                   make_targets := [PStr (u "build"); PStr (u "lint")];
                   poetry_scripts := []; shell_scripts := [];
                   mise_tasks := [] |},
                {[ u "make" ]}, ∅)) as H by (vm_compute; reflexivity).
  split; [exact H|]. intros (c & s & k & Hrun & Htargets).
  rewrite H in Hrun. injection Hrun as <- _ _. discriminate Htargets.
Qed.

(** The two classes the [except] clause names: when opening or reading the
    defaults file raises [OSError] or [json.load] raises [JSONDecodeError],
    the defaults step returns the analyzer untouched; the run is then the run
    of the same directory without the file, and it returns exactly what the
    detectors and the allowlist gathered. *)
Lemma unreadable_defaults_as_missing p d :
  unreadable d →
  (∀ self, _load_security_defaults (with_defaults p d) self = Ok self)
  ∧ analyze (with_defaults p d) = analyze (with_defaults p DefaultsMissing)
  ∧ (∀ self, gather p = Ok self →
             analyze (with_defaults p d) = Ok (result self)).
Proof.
  intros Hd.
  assert (∀ self, _load_security_defaults (with_defaults p d) self = Ok self)
    as Hstep by (by destruct Hd as [-> | ->]).
  split_and!; [done| |].
  - rewrite !analyze_gather, !gather_with_defaults.
    destruct (gather p) as [self|]; simpl; [|done]. by rewrite Hstep.
  - intros self Hg.
    rewrite analyze_gather, gather_with_defaults, Hg. simpl.
    by rewrite Hstep.
Qed.

Lemma unreadable_defaults_as_missing_witness :
  unreadable DefaultsJSONDecodeError
  ∧ analyze (with_defaults Sample.allowlist_project DefaultsJSONDecodeError)
    = Ok ({| npm_scripts := []; make_targets := [PStr (u "build")];
             poetry_scripts := []; shell_scripts := []; mise_tasks := [] |},
          {[ u "make" ]}, {[ u "docker"; u "kubectl" ]}).
Proof.
  split; [right; reflexivity|].
  destruct (unreadable_defaults_as_missing Sample.allowlist_project
              DefaultsJSONDecodeError (or_intror eq_refl)) as (_ & -> & _).
  vm_compute. reflexivity.
Defined.

(** C4. A defaults file that exists but is cut inside a multi-byte character
    is malformed JSON, yet it is not treated as absent: decoding raises
    [UnicodeDecodeError], which the [except] clause does not name, and the
    run raises, whereas the same directory without the file returns what the
    detectors and the allowlist gathered. An [OSError] raised by [exists()]
    escapes in the same way, since that call stands before the [try]. *)
Theorem undecodable_defaults_escape :
  analyze (with_defaults Sample.allowlist_project DefaultsUnicodeDecodeError)
  = Raise UnicodeDecodeError
  ∧ analyze (with_defaults Sample.allowlist_project DefaultsStatError)
    = Raise OSError
  ∧ analyze (with_defaults Sample.allowlist_project DefaultsMissing)
    = Ok ({| npm_scripts := []; make_targets := [PStr (u "build")];
             poetry_scripts := []; shell_scripts := []; mise_tasks := [] |},
          {[ u "make" ]}, {[ u "docker"; u "kubectl" ]}).
Proof.
  split_and!; vm_compute; reflexivity.
Qed.

(** C5. Whatever the defaults file holds, a run that returns with it returns
    supersets of what the run without it returns: the same directory without
    the file also returns, and its [scriptCommands] and [customCommands] are
    contained in those obtained with the file. *)
Theorem defaults_only_add p d c s k :
  analyze (with_defaults p d) = Ok (c, s, k) →
  ∃ c0 s0 k0,
    analyze (with_defaults p DefaultsMissing) = Ok (c0, s0, k0)
    ∧ s0 ⊆ s ∧ k0 ⊆ k.
Proof.
  rewrite !analyze_gather, !gather_with_defaults. intros H.
  apply bind_Ok in H as (g & -> & H).
  apply bind_Ok in H as (s6 & Hd & R%Ok_inj).
  injection R as <- <- <-.
  apply frame_defaults in Hd as F.
  exists (custom_scripts g), (script_commands g), (custom_commands g).
  split_and!; [done | apply F | apply F].
Qed.

Lemma defaults_only_add_witness :
  analyze (with_defaults Sample.allowlist_project
             (DefaultsData Sample.workspace_defaults))
  = Ok ({| npm_scripts := [];
           make_targets := [PStr (u "build"); PStr (u "deploy")];
           poetry_scripts := []; shell_scripts := [];
           mise_tasks := [PStr (u "mise run all")] |},
        {[ u "make"; u "mise" ]}, {[ u "docker"; u "kubectl"; u "go" ]})
  ∧ ∃ c0 s0 k0,
      analyze (with_defaults Sample.allowlist_project DefaultsMissing)
      = Ok (c0, s0, k0)
      ∧ s0 ⊆ {[ u "make"; u "mise" ]}
      ∧ k0 ⊆ {[ u "docker"; u "kubectl"; u "go" ]}.
Proof.
  assert (analyze (with_defaults Sample.allowlist_project
                     (DefaultsData Sample.workspace_defaults))
          = Ok ({| npm_scripts := [];
                   make_targets := [PStr (u "build"); PStr (u "deploy")];
                   poetry_scripts := []; shell_scripts := [];
                   mise_tasks := [PStr (u "mise run all")] |},
                {[ u "make"; u "mise" ]},
                {[ u "docker"; u "kubectl"; u "go" ]})) as H
    by (vm_compute; reflexivity).
  split; [exact H|]. exact (defaults_only_add _ _ _ _ _ H).
Defined.

(** C6. When [package.json] parses to an object whose [scripts] entry is an
    object with at least one key, the package-manager step succeeds, records
    exactly the keys of [scripts] in declaration order and allows [npm],
    [yarn], [pnpm] and [bun]; every run that returns still reports that
    catalog and those four launchers. *)
Theorem npm_scripts_detected p pkg scripts :
  read_json (parser p) (u "package.json") = PDict pkg →
  Py.dict_lookup (u "scripts") pkg = Some (PDict scripts) →
  scripts ≠ [] →
  (∃ self, _detect_npm_scripts p init = Ok self
           ∧ npm_scripts (custom_scripts self) = scripts.*1
           ∧ launchers ⊆ script_commands self)
  ∧ ∀ c s k, analyze p = Ok (c, s, k) →
             npm_scripts c = scripts.*1
             ∧ u "npm" ∈ s ∧ u "yarn" ∈ s ∧ u "pnpm" ∈ s ∧ u "bun" ∈ s.
Proof.
  intros Hpkg Hscripts Hne.
  pose proof (npm_step_scripts p init pkg scripts Hpkg Hscripts) as Hstep.
  pose proof (fold_launchers_fields scripts.*1
                (set_npm_scripts scripts.*1 init)) as (Hc & _ & _ & Hl).
  simpl in Hc, Hl.
  assert (scripts.*1 ≠ []) as Hne' by (by destruct scripts).
  split.
  - eexists. split; [exact Hstep|]. rewrite Hc. auto.
  - intros c s k (s1 & s6 & Hnpm & F & [= <- <- <-])%analyze_steps.
    rewrite Hstep in Hnpm. apply Ok_inj in Hnpm. subst s1.
    rewrite (frame_npm _ _ F), Hc. simpl.
    pose proof (frame_script _ _ F) as S. specialize (Hl Hne').
    unfold launchers in Hl. clear -S Hl. set_solver.
Qed.

Lemma npm_scripts_detected_witness :
  read_json (parser Sample.node_project) (u "package.json")
  = PDict [(u "scripts",
            PDict [(u "build", PStr (u "tsc")); (u "test", PStr (u "jest"))])]
  ∧ analyze Sample.node_project
    = Ok ({| npm_scripts := [u "build"; u "test"];
             make_targets := [PStr (u "all")];
             poetry_scripts := [];
             shell_scripts := [u "run.sh"];
             mise_tasks := [] |},
          {[ u "npm"; u "yarn"; u "pnpm"; u "bun"; u "make"; u "./run.sh" ]},
          ∅)
  ∧ u "bun" ∈ ({[ u "npm"; u "yarn"; u "pnpm"; u "bun"; u "make";
                  u "./run.sh" ]} : gset str).
Proof.
  assert (analyze Sample.node_project
          = Ok ({| npm_scripts := [u "build"; u "test"];
                   make_targets := [PStr (u "all")];
                   poetry_scripts := [];
                   shell_scripts := [u "run.sh"];
                   mise_tasks := [] |},
                {[ u "npm"; u "yarn"; u "pnpm"; u "bun"; u "make";
                   u "./run.sh" ]},
                ∅)) as H by (vm_compute; reflexivity).
  split; [reflexivity|]. split; [exact H|].
  refine (proj2 (proj2 (proj2 (proj2
    (proj2 (npm_scripts_detected Sample.node_project
              [(u "scripts",
                PDict [(u "build", PStr (u "tsc"));
                       (u "test", PStr (u "jest"))])]
              [(u "build", PStr (u "tsc")); (u "test", PStr (u "jest"))]
              _ _ _)
           _ _ _ H))))).
  - reflexivity.
  - reflexivity.
  - discriminate.
Defined.

(** C8. When [package.json] parses to an object whose [scripts] entry is the
    empty object, the package-manager step succeeds, leaves the catalog empty
    and adds nothing to [scriptCommands]; no run that returns reports [npm],
    [yarn], [pnpm] or [bun] there. *)
Theorem empty_scripts_no_launchers p pkg :
  read_json (parser p) (u "package.json") = PDict pkg →
  Py.dict_lookup (u "scripts") pkg = Some (PDict []) →
  (∀ self, _detect_npm_scripts p self = Ok (set_npm_scripts [] self))
  ∧ ∀ c s k, analyze p = Ok (c, s, k) →
             npm_scripts c = []
             ∧ (u "npm" ∉ s) ∧ (u "yarn" ∉ s) ∧ (u "pnpm" ∉ s)
             ∧ (u "bun" ∉ s).
Proof.
  intros Hpkg Hscripts.
  assert (∀ self, _detect_npm_scripts p self = Ok (set_npm_scripts [] self))
    as Hstep by (intros self; apply (npm_step_scripts p self pkg [] Hpkg Hscripts)).
  split; [done|].
  intros c s k (s1 & s6 & Hnpm & F & [= <- <- <-])%analyze_steps.
  rewrite Hstep in Hnpm. apply Ok_inj in Hnpm. subst s1.
  split; [by rewrite (frame_npm _ _ F)|].
  assert (∀ x, x ∈ launchers → x ∉ script_commands s6) as L.
  { intros x Hx Hin. destruct (frame_new _ _ F x Hin) as [H|H].
    - simpl in H. by apply not_elem_of_empty in H.
    - by apply (launcher_not_later x). }
  unfold launchers in L. split_and!; apply L; set_solver.
Qed.

Lemma empty_scripts_no_launchers_witness :
  analyze Sample.no_scripts_project
  = Ok ({| npm_scripts := []; make_targets := []; poetry_scripts := [];
           shell_scripts := [u "run.sh"]; mise_tasks := [] |},
        {[ u "./run.sh" ]}, ∅)
  ∧ u "npm" ∉ ({[ u "./run.sh" ]} : gset str).
Proof.
  assert (analyze Sample.no_scripts_project
          = Ok ({| npm_scripts := []; make_targets := []; poetry_scripts := [];
                   shell_scripts := [u "run.sh"]; mise_tasks := [] |},
                {[ u "./run.sh" ]}, ∅)) as H by (vm_compute; reflexivity).
  split; [exact H|].
  refine (proj1 (proj2 (proj2 (empty_scripts_no_launchers
                                 Sample.no_scripts_project
                                 [(u "name", PStr (u "app"));
                                  (u "scripts", PDict [])] _ _)
                               _ _ _ H))); reflexivity.
Defined.

(** ** Dicts *)

Lemma lookup_set_eq k v d : Py.dict_lookup k (Py.dict_set k v d) = Some v.
Proof.
  induction d as [|[k' v'] d IH]; simpl.
  - by rewrite eqb_refl.
  - destruct (PyStr.eqb k k') eqn:E; simpl; rewrite E; auto.
Qed.

Lemma lookup_set_ne k k' v d :
  k ≠ k' → Py.dict_lookup k (Py.dict_set k' v d) = Py.dict_lookup k d.
Proof.
  intros Hne. induction d as [|[k'' v''] d IH]; simpl.
  - by rewrite eqb_neq.
  - destruct (PyStr.eqb k' k'') eqn:E; simpl.
    + apply eqb_eq in E as <-. by rewrite eqb_neq.
    + by rewrite IH.
Qed.

Lemma lookup_None_keys k d : Py.dict_lookup k d = None ↔ k ∉ d.*1.
Proof.
  induction d as [|[k' v'] d IH]; simpl.
  - split; [intros _; apply not_elem_of_nil | done].
  - rewrite not_elem_of_cons. destruct (PyStr.eqb k k') eqn:E.
    + apply eqb_eq in E. split; [done | by intros [? _]].
    + rewrite IH. split; [|by intros [_ ?]].
      intros H. split; [|done]. intros ->. by rewrite eqb_refl in E.
Qed.

Lemma lookup_merge_other k base extra :
  k ∉ extra.*1 →
  Py.dict_lookup k (Py.dict_merge base extra) = Py.dict_lookup k base.
Proof.
  unfold Py.dict_merge. revert base.
  induction extra as [|[k' v'] extra IH]; simpl; intros base Hk; [done|].
  apply not_elem_of_cons in Hk as [Hne Hk].
  rewrite IH by done. by apply lookup_set_ne.
Qed.

(** In [{**base, **extra}] the entries of [extra] win. *)
Lemma lookup_merge_extra k v base extra :
  distinct_keys extra →
  Py.dict_lookup k extra = Some v →
  Py.dict_lookup k (Py.dict_merge base extra) = Some v.
Proof.
  unfold distinct_keys, Py.dict_merge. revert base.
  induction extra as [|[k' v'] extra IH]; simpl; intros base Hnd Hk;
    [done|].
  apply NoDup_cons in Hnd as [Hfresh Hnd].
  destruct (PyStr.eqb k k') eqn:E.
  - apply eqb_eq in E as <-. injection Hk as ->.
    fold (Py.dict_merge (Py.dict_set k v base) extra).
    rewrite lookup_merge_other by done. apply lookup_set_eq.
  - by apply IH.
Qed.

Lemma set_fresh k v d : k ∉ d.*1 → Py.dict_set k v d = d ++ [(k, v)].
Proof.
  induction d as [|[k' v'] d IH]; simpl; intros Hk; [done|].
  apply not_elem_of_cons in Hk as [Hne Hk].
  rewrite eqb_neq by done. by rewrite IH.
Qed.

(** With no key in common, [{**base, **extra}] is [base] followed by
    [extra]. *)
Lemma merge_fresh base extra :
  NoDup (base.*1 ++ extra.*1) → Py.dict_merge base extra = base ++ extra.
Proof.
  unfold Py.dict_merge. revert base.
  induction extra as [|[k v] extra IH]; simpl; intros base Hnd.
  - by rewrite app_nil_r.
  - assert (k ∉ base.*1) as Hk.
    { apply NoDup_app in Hnd as (_ & Hd & _). intros Hin.
      apply (Hd k Hin). by left. }
    rewrite set_fresh by done. rewrite IH.
    + by rewrite <- app_assoc.
    + rewrite fmap_app. simpl. by rewrite <- app_assoc.
Qed.

(** ** Claims about [MultiRepoContext] *)

Import MultiRepo.

(** One round of the loop on a record of the expected shape. *)
Lemma impact_step_record repo entry impacts :
  pattern_record entry.2 →
  impact_step repo entry impacts
  = Ok (if involves repo entry then impacts ++ [impact_of entry]
        else impacts).
Proof.
  destruct entry as [name info]. unfold involves, impact_of. simpl.
  destruct info as [| | | | | |d]; simpl; try done.
  destruct (Py.dict_lookup (u "repos") d) as [[| | | | |l|]|]; simpl;
    try done.
  - intros _. by destruct (Py.list_contains _ l).
Qed.

Lemma impact_loop_records repo patterns impacts :
  Forall (fun entry => pattern_record entry.2) patterns →
  for_each (impact_step repo) patterns impacts
  = Ok (impacts ++ (impact_of <$> List.filter (involves repo) patterns)).
Proof.
  intros Hall. revert impacts.
  induction Hall as [|entry patterns Hentry _ IH]; intros impacts; simpl.
  - by rewrite app_nil_r.
  - rewrite impact_step_record by done. simpl.
    destruct (involves repo entry); simpl; rewrite IH; [|done].
    by rewrite <- app_assoc.
Qed.

(** A round that returns keeps what was collected. *)
Lemma impact_step_keeps repo entry impacts impacts' :
  impact_step repo entry impacts = Ok impacts' → impacts ⊆ impacts'.
Proof.
  destruct entry as [name info]. unfold impact_step. intros H.
  apply bind_Ok in H as (involved & _ & H).
  apply bind_Ok in H as (hit & _ & H). destruct hit.
  - apply bind_Ok in H as (fields & _ & H). apply Ok_inj in H as <-.
    intros x Hx. apply elem_of_app. by left.
  - by apply Ok_inj in H as <-.
Qed.

Lemma impact_loop_keeps repo patterns impacts impacts' :
  for_each (impact_step repo) patterns impacts = Ok impacts' →
  impacts ⊆ impacts'.
Proof.
  apply (for_each_invariant (fun r => impacts ⊆ r)); [|done].
  intros entry r r' Hr H%impact_step_keeps. by etrans.
Qed.

Lemma impact_loop_reports repo entry patterns impacts impacts' :
  entry ∈ patterns →
  (∀ acc, impact_step repo entry acc = Ok (acc ++ [impact_of entry])) →
  for_each (impact_step repo) patterns impacts = Ok impacts' →
  impact_of entry ∈ impacts'.
Proof.
  intros Hin Hstep. revert impacts.
  induction patterns as [|e patterns IH]; intros impacts H.
  - by apply elem_of_nil in Hin.
  - simpl in H. apply bind_Ok in H as (r & He & H).
    apply elem_of_cons in Hin as [<- | Hin]; [|eauto].
    rewrite Hstep in He. apply Ok_inj in He as <-.
    apply (impact_loop_keeps _ _ _ _ H), elem_of_app. right.
    apply list_elem_of_here.
Qed.

(** C7. For the patterns [auth-flow] (repos [core], [web]) and [billing]
    (repos [api]) the query for [core] returns the single dict
    [{"pattern": "auth-flow", "repos": ["core", "web"]}]. In general, over
    pattern records of the expected shape, the query returns, in declaration
    order, one dict [{"pattern": name, **record}] for every pattern whose
    [repos] list contains the queried name; when the record has no [pattern]
    key of its own this dict is the name followed by the record. *)
Theorem cross_repo_impact_lists_involved_patterns :
  get_cross_repo_impact (Sample.context_of Sample.auth_billing) (u "core")
  = Ok [[(u "pattern", PStr (u "auth-flow"));
         (u "repos", PList [PStr (u "core"); PStr (u "web")])]]
  ∧ (∀ self repo_name,
       Forall (fun entry => pattern_record entry.2)
              (cross_repo_patterns self) →
       get_cross_repo_impact self repo_name
       = Ok (impact_of <$>
               List.filter (involves repo_name) (cross_repo_patterns self)))
  ∧ (∀ name record,
       distinct_keys record →
       Py.dict_lookup (u "pattern") record = None →
       impact_of (name, PDict record) = (u "pattern", PStr name) :: record).
Proof.
  split_and!.
  - vm_compute. reflexivity.
  - intros self repo_name Hall. unfold get_cross_repo_impact.
    by rewrite impact_loop_records.
  - intros name record Hnd Hfresh. unfold impact_of. simpl.
    rewrite merge_fresh; [done|]. simpl. apply NoDup_cons. split; [|done].
    by apply lookup_None_keys.
Qed.

Lemma cross_repo_impact_lists_involved_patterns_witness :
  Forall (fun entry => pattern_record entry.2)
         (cross_repo_patterns (Sample.context_of Sample.auth_billing))
  ∧ get_cross_repo_impact (Sample.context_of Sample.auth_billing) (u "api")
    = Ok [[(u "pattern", PStr (u "billing"));
           (u "repos", PList [PStr (u "api")])]].
Proof.
  assert (Forall (fun entry => pattern_record entry.2)
                 (cross_repo_patterns (Sample.context_of Sample.auth_billing)))
    as Hall by (repeat constructor).
  split; [exact Hall|].
  rewrite (proj1 (proj2 cross_repo_impact_lists_involved_patterns)
             (Sample.context_of Sample.auth_billing) (u "api") Hall).
  vm_compute. reflexivity.
Defined.

(** C9. A record that has a [pattern] key of its own and whose [repos]
    contains the queried name is reported by a dict whose [pattern] value is
    the record's: the loop round for it appends [{"pattern": name, **record}],
    in which the record's entry has replaced the pattern name, and that dict
    is in every result the query returns. *)
Theorem record_pattern_key_overrides_name
    self repo_name name record own involved :
  (name, PDict record) ∈ cross_repo_patterns self →
  distinct_keys record →
  Py.dict_lookup (u "pattern") record = Some own →
  Py.dict_lookup (u "repos") record = Some involved →
  Py.contains repo_name involved = Ok true →
  (∀ impacts,
     impact_step repo_name (name, PDict record) impacts
     = Ok (impacts ++ [impact_of (name, PDict record)]))
  ∧ Py.dict_lookup (u "pattern") (impact_of (name, PDict record)) = Some own
  ∧ (∀ impacts,
       get_cross_repo_impact self repo_name = Ok impacts →
       impact_of (name, PDict record) ∈ impacts).
Proof.
  intros Hin Hnd Hown Hrepos Hhit.
  assert (∀ impacts,
            impact_step repo_name (name, PDict record) impacts
            = Ok (impacts ++ [impact_of (name, PDict record)])) as Hstep.
  { intros impacts. unfold impact_step. simpl. rewrite Hrepos. simpl.
    by rewrite Hhit. }
  split_and!; [done| |].
  - unfold impact_of. simpl. by apply lookup_merge_extra.
  - intros impacts. unfold get_cross_repo_impact.
    by apply impact_loop_reports.
Qed.

Lemma record_pattern_key_overrides_name_witness :
  get_cross_repo_impact (Sample.context_of Sample.named_patterns) (u "core")
  = Ok [[(u "pattern", PStr (u "oauth"));
         (u "repos", PList [PStr (u "core")])]]
  ∧ Py.dict_lookup (u "pattern")
      (impact_of (u "auth-flow",
                  PDict [(u "pattern", PStr (u "oauth"));
                         (u "repos", PList [PStr (u "core")])]))
    = Some (PStr (u "oauth")).
Proof.
  split; [vm_compute; reflexivity|].
  refine (proj1 (proj2 (record_pattern_key_overrides_name
                          (Sample.context_of Sample.named_patterns)
                          (u "core") (u "auth-flow") _ _
                          (PList [PStr (u "core")]) _ _ _ _ _))).
  - left.
  - unfold distinct_keys. simpl.
    repeat (apply NoDup_cons; split;
            [rewrite ?elem_of_cons, elem_of_nil; vm_compute; intuition congruence|]).
    apply NoDup_nil_2.
  - reflexivity.
  - reflexivity.
  - reflexivity.
Defined.

(** C10. A record without a [repos] key is passed over: its loop round
    returns the collected impacts unchanged and raises nothing, so the query
    answers as if the entry were not there, for every queried name. *)
Theorem record_without_repos_ignored self repo_name name record before after :
  cross_repo_patterns self = before ++ (name, PDict record) :: after →
  Py.dict_lookup (u "repos") record = None →
  (∀ impacts,
     impact_step repo_name (name, PDict record) impacts = Ok impacts)
  ∧ get_cross_repo_impact self repo_name
    = get_cross_repo_impact
        (set_cross_repo_patterns (before ++ after) self) repo_name.
Proof.
  intros Hpat Hnone.
  assert (∀ impacts,
            impact_step repo_name (name, PDict record) impacts = Ok impacts)
    as Hstep.
  { intros impacts. unfold impact_step. simpl. by rewrite Hnone. }
  split; [done|].
  unfold get_cross_repo_impact.
  change (cross_repo_patterns (set_cross_repo_patterns (before ++ after) self))
    with (before ++ after).
  rewrite Hpat, !for_each_app.
  destruct (for_each (impact_step repo_name) before []) as [r|]; [|done].
  change (for_each (impact_step repo_name) ((name, PDict record) :: after) r
          = for_each (impact_step repo_name) after r).
  rewrite for_each_cons, Hstep. done.
Qed.

Lemma record_without_repos_ignored_witness :
  get_cross_repo_impact (Sample.context_of Sample.named_patterns) (u "team")
  = Ok []
  ∧ get_cross_repo_impact (Sample.context_of Sample.named_patterns) (u "core")
    = get_cross_repo_impact
        (Sample.context_of
           [(u "auth-flow",
             PDict [(u "pattern", PStr (u "oauth"));
                    (u "repos", PList [PStr (u "core")])])])
        (u "core").
Proof.
  split; [vm_compute; reflexivity|].
  refine (proj2 (record_without_repos_ignored
                   (Sample.context_of Sample.named_patterns) (u "core")
                   (u "notes") [(u "owner", PStr (u "team"))]
                   [(u "auth-flow",
                     PDict [(u "pattern", PStr (u "oauth"));
                            (u "repos", PList [PStr (u "core")])])]
                   [] _ _)); reflexivity.
Defined.

(** * Further properties *)

(** ** White space, words and lines *)

Lemma lstrip_blank ws rest :
  forallb PyStr.is_space ws = true →
  PyStr.lstrip (ws ++ rest) = PyStr.lstrip rest.
Proof.
  induction ws as [|c ws IH]; simpl; [done|].
  intros [-> ?]%andb_true_iff. auto.
Qed.

Lemma lstrip_decompose s :
  ∃ ws, s = ws ++ PyStr.lstrip s ∧ forallb PyStr.is_space ws = true.
Proof.
  induction s as [|c s (ws & Hs & Hws)].
  - by exists [].
  - simpl. destruct (PyStr.is_space c) eqn:E.
    + exists (c :: ws). simpl. rewrite E, Hws. split; [|done].
      by rewrite <- Hs.
    + by exists [].
Qed.

Lemma lstrip_head s c r :
  PyStr.lstrip s = c :: r → PyStr.is_space c = false.
Proof.
  induction s as [|x s IH]; simpl; [done|].
  destruct (PyStr.is_space x) eqn:E; [done|]. by intros [= <- _].
Qed.

(** What [strip] returns is either empty or [trimmed]. *)
Lemma strip_trimmed s : PyStr.strip s ≠ [] → trimmed (PyStr.strip s).
Proof.
  intros Hne. split; [done|]. unfold PyStr.strip, PyStr.rstrip in *.
  set (t := PyStr.lstrip s) in *.
  destruct (lstrip_decompose (rev t)) as (ws & Hrev & _).
  set (L := PyStr.lstrip (rev t)) in *.
  assert (t = rev L ++ rev ws) as Ht.
  { rewrite <- (rev_involutive t), Hrev, rev_app_distr. done. }
  split.
  - intros x Hx. destruct (rev L) as [|y l] eqn:E; [done|].
    injection Hx as ->. rewrite Ht in *. simpl in *.
    by apply (lstrip_head s x (l ++ rev ws)).
  - intros x Hx. destruct L as [|y l] eqn:E; [done|].
    simpl in Hx. rewrite last_snoc in Hx. injection Hx as ->.
    by apply (lstrip_head (rev t) x l).
Qed.

(** [split_from] yields nothing exactly when there is no word at all. *)
Lemma split_from_nil cur s :
  PyStr.split_from cur s = [] ↔ cur = [] ∧ forallb PyStr.is_space s = true.
Proof.
  revert cur. induction s as [|c s IH]; intros cur; simpl.
  - destruct cur; naive_solver.
  - destruct (PyStr.is_space c); simpl.
    + destruct cur; [apply IH | naive_solver].
    + rewrite IH. naive_solver.
Qed.

(** The word in progress [cur], once closed, is [cur] followed by the
    non-space characters up to the next white space. *)
Lemma split_from_first cur s first more :
  cur ≠ [] →
  PyStr.split_from cur s = first :: more →
  ∃ tok rest,
    s = tok ++ rest ∧ first = rev cur ++ tok ∧ spaceless tok
    ∧ (rest = [] ∨ ∃ c r, rest = c :: r ∧ PyStr.is_space c = true).
Proof.
  revert cur. induction s as [|c s IH]; intros cur Hcur; simpl.
  - destruct cur; [done|]. intros [= <- _]. exists [], [].
    split_and!; auto; [by rewrite app_nil_r | done].
  - destruct (PyStr.is_space c) eqn:E.
    + destruct cur; [done|]. intros [= <- _]. exists [], (c :: s).
      split_and!; eauto; [by rewrite app_nil_r | done].
    + intros H. apply IH in H as (tok & rest & -> & -> & Htok & Hrest);
        [|done].
      exists (c :: tok), rest. split_and!; auto.
      * simpl. by rewrite <- app_assoc.
      * unfold spaceless. simpl. by rewrite E.
Qed.

(** The first word of [s.split()] is what [s] starts with after its leading
    white space, up to the next white space. *)
Lemma split_first s first more :
  PyStr.split s = first :: more →
  ∃ rest,
    PyStr.lstrip s = first ++ rest ∧ first ≠ [] ∧ spaceless first
    ∧ (rest = [] ∨ ∃ c r, rest = c :: r ∧ PyStr.is_space c = true).
Proof.
  unfold PyStr.split. induction s as [|c s IH]; simpl; [done|].
  destruct (PyStr.is_space c) eqn:E; [done|].
  intros (tok & rest & -> & -> & Htok & Hrest)%split_from_first; [|done].
  exists rest. split_and!; auto.
  unfold spaceless. simpl. by rewrite E.
Qed.

(** ** Makefile targets *)

Lemma span_decompose f s a b :
  span f s = (a, b) →
  s = a ++ b ∧ forallb f a = true
  ∧ (b = [] ∨ ∃ c r, b = c :: r ∧ f c = false).
Proof.
  revert a b. induction s as [|c s IH]; simpl; intros a b.
  - intros [= <- <-]. auto.
  - destruct (f c) eqn:E.
    + destruct (span f s) as [a' b'] eqn:Es. intros [= <- <-].
      destruct (IH a' b' eq_refl) as (-> & Ha & Hb).
      split_and!; auto. simpl. by rewrite E.
    + intros [= <- <-]. split_and!; eauto.
Qed.

Lemma span_exact f a b :
  forallb f a = true →
  (b = [] ∨ ∃ c r, b = c :: r ∧ f c = false) →
  span f (a ++ b) = (a, b).
Proof.
  intros Ha Hb. induction a as [|x a IH]; simpl in *.
  - destruct Hb as [-> | (c & r & -> & Hc)]; [done|]. simpl. by rewrite Hc.
  - apply andb_true_iff in Ha as [-> Ha]. by rewrite IH.
Qed.

Lemma ident_char_not_space c :
  is_ident_char c = true → PyStr.is_space c = false.
Proof.
  unfold is_ident_char, is_ident_start, PyStr.is_space.
  rewrite !orb_true_iff, !andb_true_iff, !N.leb_le, !N.eqb_eq.
  intros H. apply not_true_is_false.
  rewrite !orb_true_iff, !andb_true_iff, !N.leb_le, !N.eqb_eq. lia.
Qed.

(** What the pattern captures is an identifier. *)
Lemma match_target_identifier line t :
  match_target line = Some t → is_identifier t = true.
Proof.
  unfold match_target. destruct line as [|c rest]; [done|].
  destruct (is_ident_start c) eqn:Ec; [|done].
  destruct (span is_ident_char rest) as [name tail] eqn:Es.
  destruct (span_decompose _ _ _ _ Es) as (_ & Hname & _).
  destruct (PyStr.lstrip tail) as [|x after]; [done|].
  destruct x as [|q]; [done|].
  do 6 (destruct q as [q|q|]; try done). intros [= <-].
  simpl. by rewrite Ec, Hname.
Qed.

(** X2. The Makefile pattern, read as a grammar: a line declares the target
    [t] exactly when it is [t], some white space and a colon, followed by
    anything, with [t] an identifier. *)
Theorem match_target_grammar line t :
  match_target line = Some t
  ↔ is_identifier t = true
    ∧ ∃ ws rest, line = t ++ ws ++ 58%N :: rest
                 ∧ forallb PyStr.is_space ws = true.
Proof.
  split.
  - unfold match_target. destruct line as [|c rest]; [done|].
    destruct (is_ident_start c) eqn:Ec; [|done].
    destruct (span is_ident_char rest) as [name tail] eqn:Es.
    destruct (span_decompose _ _ _ _ Es) as (-> & Hname & _).
    destruct (lstrip_decompose tail) as (ws & Htail & Hws).
    destruct (PyStr.lstrip tail) as [|x after]; [done|].
    destruct x as [|q]; [done|].
    do 6 (destruct q as [q|q|]; try done). intros [= <-].
    split; [simpl; by rewrite Ec, Hname|].
    exists ws, after. split; [|done]. simpl. by rewrite Htail at 1.
  - intros (Hid & ws & rest & -> & Hws).
    destruct t as [|c name]; [done|]. simpl in Hid.
    apply andb_true_iff in Hid as [Hc Hname].
    unfold match_target. simpl. rewrite Hc.
    rewrite (span_exact is_ident_char name (ws ++ 58%N :: rest)); [|done|].
    + by rewrite lstrip_blank.
    + destruct ws as [|x ws]; simpl in *; right.
      * by exists 58%N, rest.
      * apply andb_true_iff in Hws as [Hx _]. exists x, (ws ++ 58%N :: rest).
        split; [done|]. destruct (is_ident_char x) eqn:E; [|done].
        apply ident_char_not_space in E. congruence.
Qed.

(** A captured name never begins with a dot, so the test on [startswith]
    in the loop never rejects anything. *)
Lemma identifier_not_dotted t :
  is_identifier t = true → PyStr.startswith (u ".") t = false.
Proof.
  destruct t as [|c r]; [done|]. unfold is_identifier.
  intros [Hc _]%andb_true_iff. change (u ".") with [46%N].
  cbn [PyStr.startswith]. destruct (N.eqb_spec 46 c) as [<-|]; [|done].
  vm_compute in Hc. discriminate Hc.
Qed.

Lemma makefile_line_spec s line :
  makefile_line s line
  = match match_target line with
    | Some t =>
        set_make_targets (make_targets (custom_scripts s) ++ [PStr t]) s
    | None => s
    end.
Proof.
  unfold makefile_line. destruct (match_target line) as [t|] eqn:E; [|done].
  rewrite identifier_not_dotted; [done|].
  by apply (match_target_identifier line).
Qed.

Lemma makefile_lines_targets lines s :
  fold_left makefile_line lines s
  = set_make_targets
      (make_targets (custom_scripts s)
       ++ (PStr <$> omap match_target lines)) s.
Proof.
  revert s. induction lines as [|line lines IH]; intros s.
  - cbn. rewrite app_nil_r. by destruct s as [[]].
  - change (fold_left makefile_line (line :: lines) s)
      with (fold_left makefile_line lines (makefile_line s line)).
    rewrite IH, makefile_line_spec. cbn [omap list_omap].
    destruct (match_target line) as [t|]; [|done].
    cbn. by rewrite <- app_assoc.
Qed.

(** X3. With a Makefile in place, the step appends one target per line that
    fits the pattern, in line order and with repeats kept, and [make] becomes
    allowed as soon as one line fits; nothing else is added to the allowed
    script commands. *)
Theorem makefile_targets_recorded p s content :
  file_exists (parser p) (u "Makefile") = true →
  read_text (parser p) (u "Makefile") = Some content →
  ∃ s', _detect_makefile_targets p s = Ok s'
        ∧ make_targets (custom_scripts s')
          = make_targets (custom_scripts s)
            ++ (PStr <$> omap match_target (PyStr.splitlines content))
        ∧ (omap match_target (PyStr.splitlines content) ≠ [] →
           u "make" ∈ script_commands s')
        ∧ script_commands s ⊆ script_commands s'
        ∧ script_commands s' ⊆ {[ u "make" ]} ∪ script_commands s.
Proof.
  intros Hex Htext. unfold _detect_makefile_targets. rewrite Hex, Htext.
  simpl. destruct content as [|c content].
  - exists s. split_and!; [done | by rewrite app_nil_r | done | done |].
    apply union_subseteq_r.
  - rewrite makefile_lines_targets.
    set (new := omap match_target (PyStr.splitlines (c :: content))).
    change (make_targets (custom_scripts
              (set_make_targets
                 (make_targets (custom_scripts s) ++ (PStr <$> new)) s)))
      with (make_targets (custom_scripts s) ++ (PStr <$> new)).
    destruct (make_targets (custom_scripts s) ++ (PStr <$> new)) as [|t ts]
      eqn:E.
    + eexists. split; [done|]. cbn. split_and!; auto.
      * intros Hnew. apply app_eq_nil in E as [_ E].
        by apply fmap_nil_inv in E.
      * apply union_subseteq_r.
    + eexists. split; [done|]. cbn. split_and!; auto.
      * intros _. apply elem_of_union_l. by apply elem_of_singleton.
      * apply union_subseteq_r.
Qed.

Lemma makefile_targets_recorded_witness :
  ∃ s', _detect_makefile_targets Sample.makefile_project init = Ok s'
        ∧ make_targets (custom_scripts s')
          = [PStr (u "build"); PStr (u "lint")]
        ∧ u "make" ∈ script_commands s'.
Proof.
  destruct (makefile_targets_recorded Sample.makefile_project init
              Sample.makefile_text eq_refl eq_refl)
    as (s' & Hrun & Htargets & Hmake & _).
  exists s'. split; [exact Hrun|]. split.
  - rewrite Htargets. vm_compute. reflexivity.
  - apply Hmake. vm_compute. discriminate.
Defined.

(** ** Repository graph queries *)

Lemma dependents_loop (repo_name : str) (deps : list (str * list str))
    (acc : list str) :
  fold_left
    (fun (dependents : list str) '((repo, ds) : str * list str) =>
       if bool_decide (repo_name ∈ ds) then dependents ++ [repo]
       else dependents) deps acc
  = acc ++ (filter (fun e : str * list str => repo_name ∈ e.2) deps).*1.
Proof.
  revert acc. induction deps as [|[repo ds] deps IH]; intros acc; simpl.
  - by rewrite app_nil_r.
  - rewrite IH, filter_cons. cbn [snd].
    destruct (decide (repo_name ∈ ds)) as [Hin|Hin].
    + rewrite bool_decide_eq_true_2 by done.
      rewrite fmap_cons. cbn [fst]. by rewrite <- app_assoc.
    + by rewrite bool_decide_eq_false_2.
Qed.

(** X1. [get_dependent_repos] lists, in declaration order, exactly the
    repositories whose dependency list names the queried one: a repository is
    reported if and only if some entry of [dependencies] maps it to a list
    containing the name. *)
Theorem dependents_are_the_repos_listing_it self repo_name :
  get_dependent_repos self repo_name
  = (filter (fun e : str * list str => repo_name ∈ e.2)
            (dependencies self)).*1
  ∧ ∀ repo, repo ∈ get_dependent_repos self repo_name
            ↔ ∃ deps, (repo, deps) ∈ dependencies self ∧ repo_name ∈ deps.
Proof.
  assert (get_dependent_repos self repo_name
          = (filter (fun e : str * list str => repo_name ∈ e.2)
                    (dependencies self)).*1) as E
    by apply (dependents_loop repo_name (dependencies self) []).
  split; [done|]. intros repo. rewrite E, list_elem_of_fmap. split.
  - intros ([r deps] & -> & [Hdeps Hin]%list_elem_of_filter). eauto.
  - intros (deps & Hin & Hdeps). exists (repo, deps). split; [done|].
    by apply list_elem_of_filter.
Qed.

Lemma lookup_set_is_Some k k' v d :
  is_Some (Py.dict_lookup k (Py.dict_set k' v d))
  ↔ k = k' ∨ is_Some (Py.dict_lookup k d).
Proof.
  destruct (decide (k = k')) as [->|Hne].
  - rewrite lookup_set_eq. naive_solver.
  - rewrite lookup_set_ne by done. naive_solver.
Qed.

Lemma lookup_merge_is_Some k base extra :
  is_Some (Py.dict_lookup k (Py.dict_merge base extra))
  ↔ is_Some (Py.dict_lookup k base) ∨ is_Some (Py.dict_lookup k extra).
Proof.
  unfold Py.dict_merge. revert base.
  induction extra as [|[k' v'] extra IH]; intros base; simpl.
  - split; [auto | by intros [? | [? [=]]]].
  - rewrite IH, lookup_set_is_Some. destruct (PyStr.eqb k k') eqn:E.
    + apply eqb_eq in E. naive_solver.
    + assert (k ≠ k') by (intros ->; by rewrite eqb_refl in E). naive_solver.
Qed.

(** A round that reports something reports a dict with both keys. *)
Lemma impact_step_keys repo_name entry impacts impacts' :
  impact_step repo_name entry impacts = Ok impacts' →
  impacts' = impacts
  ∨ ∃ reported,
      impacts' = impacts ++ [reported]
      ∧ is_Some (Py.dict_lookup (u "pattern") reported)
      ∧ is_Some (Py.dict_lookup (u "repos") reported).
Proof.
  destruct entry as [name info]. unfold impact_step. intros H.
  apply bind_Ok in H as (involved & Hget & H).
  apply bind_Ok in H as (hit & Hhit & H). destruct hit.
  - apply bind_Ok in H as (fields & Hfields & H). apply Ok_inj in H as <-.
    right. eexists. split; [done|].
    destruct info as [| | | | | |d]; try discriminate Hget.
    injection Hfields as <-. injection Hget as <-.
    rewrite !lookup_merge_is_Some. split.
    + left. change (is_Some (Some (PStr name))). done.
    + right. destruct (Py.dict_lookup (u "repos") d); [done|].
      discriminate Hhit.
  - apply Ok_inj in H as <-. by left.
Qed.

(** X4. Every dict that [get_cross_repo_impact] returns has a [pattern] key
    and a [repos] key, and there are at most as many of them as there are
    patterns. *)
Theorem impacts_carry_pattern_and_repos self repo_name impacts :
  get_cross_repo_impact self repo_name = Ok impacts →
  Forall (fun reported =>
            is_Some (Py.dict_lookup (u "pattern") reported)
            ∧ is_Some (Py.dict_lookup (u "repos") reported)) impacts
  ∧ (length impacts ≤ length (cross_repo_patterns self))%nat.
Proof.
  unfold get_cross_repo_impact.
  assert (∀ patterns acc acc',
            for_each (impact_step repo_name) patterns acc = Ok acc' →
            Forall (fun reported =>
                      is_Some (Py.dict_lookup (u "pattern") reported)
                      ∧ is_Some (Py.dict_lookup (u "repos") reported)) acc →
            Forall (fun reported =>
                      is_Some (Py.dict_lookup (u "pattern") reported)
                      ∧ is_Some (Py.dict_lookup (u "repos") reported)) acc'
            ∧ (length acc' ≤ length acc + length patterns)%nat) as Hloop.
  { induction patterns as [|entry patterns IH]; intros acc acc' H Hacc.
    - apply Ok_inj in H as <-. split; [done|]. simpl. lia.
    - simpl in H. apply bind_Ok in H as (acc1 & Hstep & H).
      apply impact_step_keys in Hstep
        as [-> | (reported & -> & Hp & Hr)].
      + destruct (IH _ _ H Hacc). split; [done|]. simpl. lia.
      + destruct (IH _ _ H) as [? Hlen].
        { apply Forall_app. split; [done|]. by apply Forall_singleton. }
        split; [done|]. rewrite length_app in Hlen. simpl in *. lia. }
  intros H. by destruct (Hloop _ _ _ H (Forall_nil_2 _)).
Qed.

Lemma impacts_carry_pattern_and_repos_witness :
  Forall (fun reported =>
            is_Some (Py.dict_lookup (u "pattern") reported)
            ∧ is_Some (Py.dict_lookup (u "repos") reported))
         [[(u "pattern", PStr (u "auth-flow"));
           (u "repos", PList [PStr (u "core"); PStr (u "web")])]]
  ∧ (1 ≤ 2)%nat.
Proof.
  exact (impacts_carry_pattern_and_repos
           (Sample.context_of Sample.auth_billing) (u "core") _ eq_refl).
Defined.

(** X5. The query returns only if every pattern record is a dict: one record
    of another type makes the whole query raise, whatever the other records
    are. *)
Theorem impact_query_needs_dict_records self repo_name impacts :
  get_cross_repo_impact self repo_name = Ok impacts →
  Forall (fun entry : str * pyval => ∃ d, entry.2 = PDict d)
         (cross_repo_patterns self).
Proof.
  unfold get_cross_repo_impact. generalize (@nil pydict).
  induction (cross_repo_patterns self) as [|[name info] patterns IH];
    intros acc H; [done|].
  simpl in H. apply bind_Ok in H as (acc1 & Hstep & H).
  apply Forall_cons. split; [|eauto].
  unfold impact_step in Hstep. apply bind_Ok in Hstep as (involved & Hget & _).
  destruct info; try discriminate Hget. eauto.
Qed.

Lemma impact_query_needs_dict_records_witness :
  Forall (fun entry : str * pyval => ∃ d, entry.2 = PDict d)
         Sample.auth_billing.
Proof.
  exact (impact_query_needs_dict_records
           (Sample.context_of Sample.auth_billing) (u "core") _ eq_refl).
Defined.

(** ** Where allowed commands come from *)

Lemma fold_left_invariant_in {A S : Type} (P : S → Prop) (f : S → A → S)
    (l : list A) s :
  (∀ s x, x ∈ l → P s → P (f s x)) → P s → P (fold_left f l s).
Proof.
  revert s. induction l as [|x l IH]; simpl; intros s Hf Hs; [done|].
  apply IH.
  - intros s' y Hy. apply Hf. by right.
  - apply Hf; [by left | done].
Qed.

Section Provenance.
Variable p : project.
Variables R Q : str → Prop.
Hypothesis R_launchers : ∀ x, x ∈ launchers → R x.
Hypothesis R_make : R (u "make").
Hypothesis R_mise : R (u "mise").
Hypothesis R_script : ∀ n, n ∈ shell_script_names p → R (u "./" ++ n).
Hypothesis Q_line :
  ∀ line, PyStr.strip line ≠ [] →
          PyStr.startswith (u "#") (PyStr.strip line) = false →
          Q (PyStr.strip line).
Hypothesis Q_word :
  ∀ cmd first more, PyStr.split cmd = first :: more → Q first.

Lemma respects_add_script c s :
  R c → respects R Q s → respects R Q (add_script_command c s).
Proof using Type.
  intros Hc [Hs Hk]. split; simpl; [|done].
  intros x [->%elem_of_singleton | Hx]%elem_of_union; auto.
Qed.

Lemma respects_add_custom c s :
  Q c → respects R Q s → respects R Q (add_custom_command c s).
Proof using Type.
  intros Hc [Hs Hk]. split; simpl; [done|].
  intros x [->%elem_of_singleton | Hx]%elem_of_union; auto.
Qed.

Lemma respects_npm s s' :
  _detect_npm_scripts p s = Ok s' → respects R Q s → respects R Q s'.
Proof using R_launchers.
  unfold _detect_npm_scripts. intros H Hs.
  apply bind_Ok in H as (has & _ & H). destruct has.
  - apply bind_Ok in H as (scripts & _ & H).
    apply bind_Ok in H as (names & _ & H). apply Ok_inj in H as <-.
    apply fold_left_invariant; [|done].
    intros s1 _ H1. unfold add_launchers.
    repeat apply respects_add_script; try done;
      apply R_launchers; unfold launchers;
      rewrite !elem_of_union, !elem_of_singleton; tauto.
  - by apply Ok_inj in H as <-.
Qed.

Lemma respects_makefile s s' :
  _detect_makefile_targets p s = Ok s' → respects R Q s → respects R Q s'.
Proof using R_make.
  unfold _detect_makefile_targets. intros H Hs.
  destruct (negb _); [by apply Ok_inj in H as <-|].
  destruct (read_text _ _) as [[|c content]|];
    try (by apply Ok_inj in H as <-).
  assert (respects R Q
            (fold_left makefile_line (PyStr.splitlines (c :: content)) s))
    as Hfold.
  { apply fold_left_invariant; [|done]. intros s1 line H1.
    unfold makefile_line. destruct (match_target line); [|done].
    by destruct (negb _). }
  destruct (make_targets _); apply Ok_inj in H as <-; [done|].
  by apply respects_add_script.
Qed.

Lemma respects_poetry s s' :
  _detect_poetry_scripts p s = Ok s' → respects R Q s → respects R Q s'.
Proof using Type.
  intros H Hs. pose proof (poetry_script_commands _ _ _ H) as Hsc.
  assert (custom_commands s' = custom_commands s) as Hcc.
  { revert H. unfold _detect_poetry_scripts, and_then. intros H.
    by inv_ok. }
  destruct Hs as [Hs Hk]. split; [by rewrite Hsc | by rewrite Hcc].
Qed.

Lemma respects_shell s s' :
  _detect_shell_scripts p s = Ok s' → respects R Q s → respects R Q s'.
Proof using R_script.
  intros H Hs. apply Ok_inj in H as <-.
  assert (∀ names s0,
            names ⊆ shell_script_names p → respects R Q s0 →
            respects R Q (fold_left shell_script names s0)) as Hfold.
  { intros names s0 Hsub H0. apply fold_left_invariant_in; [|done].
    intros s1 n Hn H1. unfold shell_script.
    apply respects_add_script; [by apply R_script, Hsub|].
    by destruct H1. }
  simpl. apply Hfold; [|apply Hfold; [|done]];
    intros n Hn; unfold shell_script_names; apply elem_of_app; auto.
Qed.

Lemma respects_allowlist s s' :
  load_custom_allowlist p s = Ok s' → respects R Q s → respects R Q s'.
Proof using Q_line.
  unfold load_custom_allowlist. intros H Hs.
  destruct (read_text _ _) as [[|c content]|];
    apply Ok_inj in H as <-; try done.
  apply fold_left_invariant; [|done]. intros s1 line H1.
  unfold allowlist_line.
  destruct (PyStr.strip line) as [|x l] eqn:E; [done|].
  destruct (negb _) eqn:E'; [|done].
  apply respects_add_custom; [|done]. rewrite <- E.
  apply Q_line; rewrite E; [done|]. by apply negb_true_iff.
Qed.

Lemma respects_validation_command cmd s s' :
  validation_command cmd s = Ok s' → respects R Q s → respects R Q s'.
Proof using Q_word.
  unfold validation_command. intros H Hs.
  destruct cmd as [| | | |cmd| |]; try (by apply Ok_inj in H as <-).
  apply bind_Ok in H as (base_cmd & Hbase & H).
  destruct base_cmd as [|x base]; apply Ok_inj in H as <-; [done|].
  apply respects_add_custom; [|done].
  destruct cmd as [|c cmd]; [done|].
  destruct (PyStr.split (c :: cmd)) as [|first more] eqn:E; [done|].
  apply Ok_inj in Hbase as ->. by apply (Q_word (c :: cmd) _ more).
Qed.

Lemma respects_merge data s s' :
  merge_security_defaults data s = Ok s' →
  respects R Q s → respects R Q s'.
Proof using R_make R_mise Q_word.
  unfold merge_security_defaults. intros H Hs.
  apply bind_Ok in H as (custom & _ & H).
  apply bind_Ok in H as (targets & _ & H).
  apply bind_Ok in H as (visited & _ & H).
  apply bind_Ok in H as (tasks & _ & H).
  apply bind_Ok in H as (visited' & _ & H).
  apply bind_Ok in H as (validation & _ & H).
  apply bind_Ok in H as (categories & _ & H).
  revert H. apply for_each_invariant.
  - intros entry s1 s2 H1. unfold validation_category.
    destruct entry.2; try (by intros <-%Ok_inj).
    apply for_each_invariant; [|done].
    intros cmd s3 s4 H3 H4. by apply (respects_validation_command cmd s3).
  - assert (∀ name v s0, R name → respects R Q s0 →
              respects R Q
                (if Py.truthy v then add_script_command name s0 else s0))
      as Hif.
    { intros name v s0 Hc H0. destruct (Py.truthy v); [|done].
      by apply respects_add_script. }
    apply (Hif (u "mise") tasks); [done|].
    apply fold_left_invariant.
    { intros s1 t H1. unfold merge_mise_task. by destruct (negb _). }
    apply (Hif (u "make") targets); [done|].
    apply fold_left_invariant; [|done].
    intros s1 t H1. unfold merge_make_target. by destruct (negb _).
Qed.

Lemma respects_defaults s s' :
  _load_security_defaults p s = Ok s' → respects R Q s → respects R Q s'.
Proof using R_make R_mise Q_word.
  unfold _load_security_defaults.
  destruct (security_defaults p); try (by intros <-%Ok_inj); try done.
  apply respects_merge.
Qed.

Lemma respects_gather s :
  gather p = Ok s → respects R Q s.
Proof using R_launchers R_make R_script Q_line.
  unfold gather, detect_custom_scripts. intros H.
  apply bind_Ok in H as (s4 & Hdet & E5).
  apply bind_Ok in Hdet as (s1 & E1 & Hdet).
  apply bind_Ok in Hdet as (s2 & E2 & Hdet).
  apply bind_Ok in Hdet as (s3 & E3 & E4).
  apply (respects_allowlist _ _ E5), (respects_shell _ _ E4),
    (respects_poetry _ _ E3), (respects_makefile _ _ E2),
    (respects_npm _ _ E1).
  split; intros x Hx; by apply not_elem_of_empty in Hx.
Qed.

Lemma respects_analyze c s k :
  analyze p = Ok (c, s, k) →
  (∀ x, x ∈ s → R x) ∧ (∀ x, x ∈ k → Q x).
Proof using R_launchers R_make R_mise R_script Q_line Q_word.
  unfold analyze, detect_custom_scripts. intros H.
  apply bind_Ok in H as (s4 & Hdet & H).
  apply bind_Ok in Hdet as (s1 & E1 & Hdet).
  apply bind_Ok in Hdet as (s2 & E2 & Hdet).
  apply bind_Ok in Hdet as (s3 & E3 & E4).
  apply bind_Ok in H as (s5 & E5 & H).
  apply bind_Ok in H as (s6 & E6 & R6%Ok_inj).
  injection R6 as <- <- <-.
  apply (respects_defaults _ _ E6), (respects_allowlist _ _ E5),
    (respects_shell _ _ E4), (respects_poetry _ _ E3),
    (respects_makefile _ _ E2), (respects_npm _ _ E1).
  split; intros x Hx; by apply not_elem_of_empty in Hx.
Qed.
End Provenance.

(** ** What each step leaves alone *)

Lemma untouched_refl may s : untouched may s s.
Proof. by repeat split. Qed.

Lemma untouched_trans may s1 s2 s3 :
  untouched may s1 s2 → untouched may s2 s3 → untouched may s1 s3.
Proof.
  unfold untouched. intros H1 H2.
  destruct H1 as (?&?&?&?&?&?&?), H2 as (?&?&?&?&?&?&?).
  split_and!; intros Hm; intuition congruence.
Qed.

Lemma untouched_fold {A : Type} may (f : analyzer → A → analyzer) l s :
  (∀ s x, untouched may s (f s x)) → untouched may s (fold_left f l s).
Proof.
  intros Hf. apply (fold_left_invariant (untouched may s));
    [|apply untouched_refl].
  intros s' x Hs'. eapply untouched_trans; eauto.
Qed.

Lemma untouched_for_each {A : Type} may
    (body : A → analyzer → outcome analyzer) l s s' :
  (∀ x s s', body x s = Ok s' → untouched may s s') →
  for_each body l s = Ok s' → untouched may s s'.
Proof.
  intros Hb. apply (for_each_invariant (untouched may s));
    [|apply untouched_refl].
  intros x s1 s2 Hs1 H. eapply untouched_trans; eauto.
Qed.

(** Closes [untouched] goals about a concrete field update. *)
Ltac untouched_now :=
  unfold untouched; simpl; split_and!; intros; (done || discriminate).

Lemma untouched_npm p s s' :
  _detect_npm_scripts p s = Ok s' → untouched only_npm s s'.
Proof.
  unfold _detect_npm_scripts. intros H.
  apply bind_Ok in H as (has & _ & H). destruct has.
  - apply bind_Ok in H as (scripts & _ & H).
    apply bind_Ok in H as (names & _ & H). apply Ok_inj in H as <-.
    apply (untouched_trans _ _ (set_npm_scripts names s)); [untouched_now|].
    apply (untouched_fold only_npm (fun self _ => add_launchers self)).
    intros s1 _. untouched_now.
  - apply Ok_inj in H as <-. apply untouched_refl.
Qed.

Lemma untouched_makefile p s s' :
  _detect_makefile_targets p s = Ok s' → untouched only_make s s'.
Proof.
  unfold _detect_makefile_targets. intros H.
  destruct (negb _); [apply Ok_inj in H as <-; apply untouched_refl|].
  destruct (read_text _ _) as [[|c content]|];
    try (apply Ok_inj in H as <-; apply untouched_refl).
  assert (untouched only_make s
            (fold_left makefile_line (PyStr.splitlines (c :: content)) s))
    as Hfold.
  { apply untouched_fold. intros s1 line. unfold makefile_line.
    destruct (match_target line); [|apply untouched_refl].
    destruct (negb _); [untouched_now | apply untouched_refl]. }
  destruct (make_targets _); apply Ok_inj in H as <-; [done|].
  eapply untouched_trans; [exact Hfold|]. untouched_now.
Qed.

Lemma untouched_poetry p s s' :
  _detect_poetry_scripts p s = Ok s' → untouched only_poetry s s'.
Proof.
  unfold _detect_poetry_scripts, and_then. intros H.
  inv_ok; untouched_now.
Qed.

Lemma untouched_shell p s s' :
  _detect_shell_scripts p s = Ok s' → untouched only_shell s s'.
Proof.
  assert (∀ names s0,
            untouched only_shell s0 (fold_left shell_script names s0)) as F.
  { intros names s0. apply untouched_fold. intros s1 n. untouched_now. }
  unfold _detect_shell_scripts. simpl. intros <-%Ok_inj.
  eapply untouched_trans; apply F.
Qed.

Lemma untouched_allowlist p s s' :
  load_custom_allowlist p s = Ok s' → untouched only_custom s s'.
Proof.
  unfold load_custom_allowlist.
  destruct (read_text _ _) as [[|c content]|];
    intros <-%Ok_inj; try apply untouched_refl.
  apply untouched_fold. intros s1 line. unfold allowlist_line.
  destruct (PyStr.strip line); [apply untouched_refl|].
  destruct (negb _); [untouched_now | apply untouched_refl].
Qed.

(** The defaults merge, taken apart: the values it reads, the two catalog
    loops, and then the validation commands, which only add custom
    commands. *)
Lemma merge_shape data s s' :
  merge_security_defaults data s = Ok s' →
  ∃ custom targets visited tasks visited',
    Py.get data (u "custom_scripts") (PDict []) = Ok custom
    ∧ Py.get custom (u "make_targets") (PList []) = Ok targets
    ∧ Py.iter targets = Ok visited
    ∧ Py.get custom (u "mise_tasks") (PList []) = Ok tasks
    ∧ Py.iter tasks = Ok visited'
    ∧ untouched only_custom
        (merged_catalogs targets visited tasks visited' s) s'.
Proof.
  unfold merge_security_defaults. intros H.
  apply bind_Ok in H as (custom & Hcustom & H).
  apply bind_Ok in H as (targets & Htargets & H).
  apply bind_Ok in H as (visited & Hvisited & H).
  apply bind_Ok in H as (tasks & Htasks & H).
  apply bind_Ok in H as (visited' & Hvisited' & H).
  apply bind_Ok in H as (validation & _ & H).
  apply bind_Ok in H as (categories & _ & H).
  exists custom, targets, visited, tasks, visited'. split_and!; try done.
  revert H. apply untouched_for_each.
  intros entry s5 s6. unfold validation_category.
  destruct entry.2; try (intros <-%Ok_inj; apply untouched_refl).
  apply untouched_for_each. intros cmd s7 s8. unfold validation_command.
  destruct cmd; try (intros <-%Ok_inj; apply untouched_refl).
  intros H'. apply bind_Ok in H' as (base & _ & H').
  destruct base; apply Ok_inj in H' as <-;
    [apply untouched_refl | untouched_now].
Qed.

Lemma untouched_merged_catalogs targets visited tasks visited' s :
  untouched only_defaults s
    (merged_catalogs targets visited tasks visited' s).
Proof.
  assert (∀ name v s0,
            untouched only_defaults s0
              (if Py.truthy v then add_script_command name s0 else s0))
    as Hif.
  { intros name v s0. destruct (Py.truthy v);
      [untouched_now | apply untouched_refl]. }
  unfold merged_catalogs. cbv zeta.
  eapply untouched_trans; [|apply Hif].
  eapply untouched_trans; [|apply untouched_fold].
  - eapply untouched_trans; [|apply Hif].
    apply untouched_fold. intros s0 t. unfold merge_make_target.
    destruct (negb _); [untouched_now | apply untouched_refl].
  - intros s0 t. unfold merge_mise_task.
    destruct (negb _); [untouched_now | apply untouched_refl].
Qed.

Lemma untouched_merge data s s' :
  merge_security_defaults data s = Ok s' → untouched only_defaults s s'.
Proof.
  intros (custom & targets & visited & tasks & visited' & _ & _ & _ & _ & _
          & H)%merge_shape.
  eapply untouched_trans; [apply untouched_merged_catalogs|].
  revert H. unfold untouched. simpl. intros (?&?&?&?&?&?&?).
  split_and!; intros; (discriminate || auto).
Qed.

Lemma untouched_defaults p s s' :
  _load_security_defaults p s = Ok s' → untouched only_defaults s s'.
Proof.
  unfold _load_security_defaults.
  destruct (security_defaults p);
    try (intros <-%Ok_inj; apply untouched_refl); try done.
  apply untouched_merge.
Qed.

(** ** The sets a run returns *)

(** X6. Whatever the project holds, a run that returns allows as script
    commands only [npm], [yarn], [pnpm], [bun], [make], [mise] and
    [./<name>] for shell scripts found in the project root. *)
Theorem script_commands_are_known p c s k :
  analyze p = Ok (c, s, k) →
  ∀ x, x ∈ s →
       x ∈ launchers ∨ x = u "make" ∨ x = u "mise"
       ∨ ∃ n, n ∈ shell_script_names p ∧ x = u "./" ++ n.
Proof.
  intros H.
  refine (proj1 (respects_analyze p
                   (fun x => x ∈ launchers ∨ x = u "make" ∨ x = u "mise"
                             ∨ ∃ n, n ∈ shell_script_names p
                                    ∧ x = u "./" ++ n)
                   (fun _ => True) _ _ _ _ _ _ c s k H)); eauto 6.
Qed.

Lemma script_commands_are_known_witness :
  u "./run.sh" ∈ launchers ∨ u "./run.sh" = u "make"
  ∨ u "./run.sh" = u "mise"
  ∨ ∃ n, n ∈ shell_script_names Sample.node_project
         ∧ u "./run.sh" = u "./" ++ n.
Proof.
  apply (script_commands_are_known Sample.node_project
           {| npm_scripts := [u "build"; u "test"];
              make_targets := [PStr (u "all")];
              poetry_scripts := [];
              shell_scripts := [u "run.sh"];
              mise_tasks := [] |}
           {[ u "npm"; u "yarn"; u "pnpm"; u "bun"; u "make"; u "./run.sh" ]}
           ∅).
  - vm_compute. reflexivity.
  - apply (bool_decide_unpack _). vm_compute. exact I.
Defined.

Lemma spaceless_trimmed c : c ≠ [] → spaceless c → trimmed c.
Proof.
  unfold spaceless. rewrite forallb_forall. intros Hne Hall.
  assert (∀ x, x ∈ c → PyStr.is_space x = false) as Hc.
  { intros x Hx%list_elem_of_In. apply negb_true_iff. auto. }
  split_and!; [done| |].
  - intros x Hx. apply Hc. destruct c; [done|]. injection Hx as ->. by left.
  - intros x Hx. apply Hc. apply last_Some in Hx as [l ->].
    apply elem_of_app. right. by left.
Qed.

(** X7. No custom command a run returns is empty or begins or ends with
    white space, whether it came from the allowlist or from the defaults
    file. *)
Theorem custom_commands_are_trimmed p c s k :
  analyze p = Ok (c, s, k) → ∀ x, x ∈ k → trimmed x.
Proof.
  intros H.
  refine (proj2 (respects_analyze p (fun _ => True) trimmed
                   _ _ _ _ _ _ c s k H)); try done.
  - intros line Hne _. by apply strip_trimmed.
  - intros cmd first more (rest & _ & Hne & Hsp & _)%split_first.
    by apply spaceless_trimmed.
Qed.

Lemma custom_commands_are_trimmed_witness : trimmed (u "kubectl").
Proof.
  apply (custom_commands_are_trimmed
           (with_defaults Sample.allowlist_project
              (DefaultsData Sample.workspace_defaults))
           {| npm_scripts := [];
              make_targets := [PStr (u "build"); PStr (u "deploy")];
              poetry_scripts := []; shell_scripts := [];
              mise_tasks := [PStr (u "mise run all")] |}
           {[ u "make"; u "mise" ]}
           {[ u "docker"; u "kubectl"; u "go" ]}).
  - vm_compute. reflexivity.
  - apply (bool_decide_unpack _). vm_compute. exact I.
Defined.

(** ** Shell scripts and the user allowlist *)

Lemma shell_loop names s :
  let s' := fold_left shell_script names s in
  shell_scripts (custom_scripts s') = shell_scripts (custom_scripts s) ++ names
  ∧ ∀ x, x ∈ script_commands s'
         ↔ x ∈ script_commands s ∨ ∃ n, n ∈ names ∧ x = u "./" ++ n.
Proof.
  simpl. revert s. induction names as [|n names IH]; intros s.
  - simpl. rewrite app_nil_r. split; [done|]. intros x. split; [auto|].
    intros [?|(n & Hn & _)]; [done|]. by apply elem_of_nil in Hn.
  - change (fold_left shell_script (n :: names) s)
      with (fold_left shell_script names (shell_script s n)).
    destruct (IH (shell_script s n)) as [Hsh Hsc]. split.
    + rewrite Hsh. simpl. by rewrite <- app_assoc.
    + intros x. rewrite Hsc. unfold shell_script at 1. simpl.
      rewrite elem_of_union, elem_of_singleton.
      setoid_rewrite elem_of_cons. naive_solver.
Qed.

Lemma shell_step_facts p s s' :
  _detect_shell_scripts p s = Ok s' →
  shell_scripts (custom_scripts s')
  = shell_scripts (custom_scripts s) ++ shell_script_names p
  ∧ ∀ x, x ∈ script_commands s'
         ↔ x ∈ script_commands s
           ∨ ∃ n, n ∈ shell_script_names p ∧ x = u "./" ++ n.
Proof.
  intros <-%Ok_inj. simpl.
  destruct (shell_loop (glob_files (parser p) (u "*.bash"))
              (fold_left shell_script (glob_files (parser p) (u "*.sh")) s))
    as [Hsh2 Hsc2].
  destruct (shell_loop (glob_files (parser p) (u "*.sh")) s) as [Hsh1 Hsc1].
  split.
  - rewrite Hsh2, Hsh1. unfold shell_script_names. by rewrite <- app_assoc.
  - intros x. rewrite Hsc2, Hsc1. unfold shell_script_names.
    setoid_rewrite elem_of_app. naive_solver.
Qed.

(** X8. The shell-script step never fails. It appends the names matching
    [*.sh] and then those matching [*.bash] to the catalog, allows exactly
    [./<name>] for each of them on top of what was allowed, and changes
    nothing else. *)
Theorem shell_scripts_recorded p s :
  ∃ s', _detect_shell_scripts p s = Ok s'
        ∧ shell_scripts (custom_scripts s')
          = shell_scripts (custom_scripts s) ++ shell_script_names p
        ∧ (∀ x, x ∈ script_commands s'
                ↔ x ∈ script_commands s
                  ∨ ∃ n, n ∈ shell_script_names p ∧ x = u "./" ++ n)
        ∧ untouched only_shell s s'.
Proof.
  eexists. split; [reflexivity|].
  destruct (shell_step_facts p s _ eq_refl) as [Hsh Hsc].
  split_and!; [exact Hsh | exact Hsc |].
  by apply (untouched_shell p).
Qed.

Lemma allowlist_loop lines s :
  ∀ c, c ∈ custom_commands (fold_left allowlist_line lines s)
       ↔ c ∈ custom_commands s
         ∨ ∃ line, line ∈ lines ∧ c = PyStr.strip line ∧ c ≠ []
                   ∧ PyStr.startswith (u "#") c = false.
Proof.
  revert s. induction lines as [|line lines IH]; intros s c.
  - simpl. split; [auto|]. intros [?|(l & Hl & _)]; [done|].
    by apply elem_of_nil in Hl.
  - change (fold_left allowlist_line (line :: lines) s)
      with (fold_left allowlist_line lines (allowlist_line s line)).
    rewrite IH. unfold allowlist_line at 1. setoid_rewrite elem_of_cons.
    destruct (PyStr.strip line) as [|x l] eqn:E.
    { split.
      - intros [?|(l & Hl & ?)]; [by left|]. right. exists l. auto.
      - intros [?|(l & [->|Hl] & Hc & Hne & Hs)]; [by left| |].
        + congruence.
        + right. exists l. auto. }
    destruct (negb _) eqn:E'; cbn [custom_commands add_custom_command].
    + apply negb_true_iff in E'.
      rewrite elem_of_union, elem_of_singleton. split.
      * intros [[->|?]|(l' & Hl & ?)]; [|by left|].
        -- right. exists line. rewrite E. auto.
        -- right. exists l'. auto.
      * intros [?|(l' & [->|Hl] & Hc & Hne & Hs)]; [by left; right| |].
        -- left. left. by rewrite Hc.
        -- right. exists l'. auto.
    + apply negb_false_iff in E'. split.
      * intros [?|(l' & Hl & ?)]; [by left|]. right. exists l'. auto.
      * intros [?|(l' & [->|Hl] & Hc & Hne & Hs)]; [by left| |].
        -- rewrite Hc, E in Hs. congruence.
        -- right. exists l'. auto.
Qed.

(** X9. With an allowlist file in place, loading it never fails and touches
    nothing but the custom commands, to which it adds exactly the lines of
    the file, stripped of surrounding white space, that are then neither
    empty nor start with [#]. *)
Theorem allowlist_entries_loaded p s content :
  read_text (parser p) CUSTOM_ALLOWLIST_FILENAME = Some content →
  ∃ s', load_custom_allowlist p s = Ok s'
        ∧ untouched only_custom s s'
        ∧ ∀ c, c ∈ custom_commands s'
               ↔ c ∈ custom_commands s
                 ∨ ∃ line, line ∈ PyStr.splitlines content
                           ∧ c = PyStr.strip line ∧ c ≠ []
                           ∧ PyStr.startswith (u "#") c = false.
Proof.
  intros Htext.
  assert (∃ s', load_custom_allowlist p s = Ok s'
                ∧ custom_commands s'
                  = custom_commands
                      (fold_left allowlist_line (PyStr.splitlines content) s))
    as (s' & Hrun & Hcc).
  { unfold load_custom_allowlist. rewrite Htext.
    destruct content; eexists; split; reflexivity. }
  exists s'. split; [done|]. split; [by apply (untouched_allowlist p)|].
  intros c. rewrite Hcc. apply allowlist_loop.
Qed.

Lemma allowlist_entries_loaded_witness :
  ∃ s', load_custom_allowlist Sample.allowlist_project init = Ok s'
        ∧ custom_commands s' = {[ u "docker"; u "kubectl" ]}.
Proof.
  destruct (allowlist_entries_loaded Sample.allowlist_project init
              (u "docker" ++ Sample.nl ++ u "# comment" ++ Sample.nl
               ++ Sample.nl ++ u "kubectl" ++ Sample.nl) eq_refl)
    as (s' & Hrun & _ & _).
  exists s'. split; [exact Hrun|].
  assert (Ok s' = Ok (add_custom_command (u "kubectl")
                        (add_custom_command (u "docker") init))) as E
    by (rewrite <- Hrun; vm_compute; reflexivity).
  injection E as ->. vm_compute. reflexivity.
Defined.

(** ** Manifests of unexpected shape, and the two script tables *)

(** X10. A run that returns reports as shell-script catalog exactly the names
    found in the project root, [*.sh] before [*.bash], and allows [./<name>]
    for each of them. *)
Theorem shell_catalog_is_the_root_listing p c s k :
  analyze p = Ok (c, s, k) →
  shell_scripts c = shell_script_names p
  ∧ ∀ n, n ∈ shell_script_names p → u "./" ++ n ∈ s.
Proof.
  unfold analyze, detect_custom_scripts. intros H.
  apply bind_Ok in H as (s4 & Hdet & H).
  apply bind_Ok in Hdet as (s1 & E1 & Hdet).
  apply bind_Ok in Hdet as (s2 & E2 & Hdet).
  apply bind_Ok in Hdet as (s3 & E3 & E4).
  apply bind_Ok in H as (s5 & E5 & H).
  apply bind_Ok in H as (s6 & E6 & R6%Ok_inj).
  injection R6 as <- <- <-.
  destruct (shell_step_facts _ _ _ E4) as [Hsh Hsc].
  apply untouched_npm in E1 as (_&_&_&U1&_).
  apply untouched_makefile in E2 as (_&_&_&U2&_).
  apply untouched_poetry in E3 as (_&_&_&U3&_).
  pose proof (frame_allowlist _ _ _ E5) as F5.
  pose proof (frame_defaults _ _ _ E6) as F6.
  apply untouched_allowlist in E5 as (_&_&_&U5&_).
  apply untouched_defaults in E6 as (_&_&_&U6&_).
  split.
  - rewrite U6, U5, Hsh, U3, U2, U1 by done. done.
  - intros n Hn. apply (frame_script _ _ F6), (frame_script _ _ F5), Hsc.
    eauto.
Qed.

Lemma shell_catalog_is_the_root_listing_witness :
  [u "run.sh"] = shell_script_names Sample.node_project
  ∧ ∀ n, n ∈ shell_script_names Sample.node_project →
         u "./" ++ n
         ∈ ({[ u "npm"; u "yarn"; u "pnpm"; u "bun"; u "make";
               u "./run.sh" ]} : gset str).
Proof.
  apply (shell_catalog_is_the_root_listing Sample.node_project
           {| npm_scripts := [u "build"; u "test"];
              make_targets := [PStr (u "all")];
              poetry_scripts := [];
              shell_scripts := [u "run.sh"];
              mise_tasks := [] |} _ ∅).
  vm_compute. reflexivity.
Defined.

(** X11. When [package.json] is an object whose [scripts] entry is anything
    but an object (a string, a list, [null], ...), the run raises
    [AttributeError]: nothing catches the failing [.keys()]. *)
Theorem scripts_of_wrong_type_abort_the_run p pkg scripts :
  read_json (parser p) (u "package.json") = PDict pkg →
  Py.dict_lookup (u "scripts") pkg = Some scripts →
  (∀ d, scripts ≠ PDict d) →
  analyze p = Raise AttributeError.
Proof.
  intros Hpkg Hscripts Hshape.
  assert (_detect_npm_scripts p init = Raise AttributeError) as Hstep.
  { unfold _detect_npm_scripts. rewrite Hpkg.
    assert (Py.truthy (PDict pkg) = true) as ->
      by (destruct pkg; [discriminate Hscripts | done]).
    unfold and_then. simpl. rewrite Hscripts. simpl.
    destruct scripts; try done. by destruct (Hshape d). }
  unfold analyze, detect_custom_scripts. by rewrite Hstep.
Qed.

Lemma scripts_of_wrong_type_abort_the_run_witness :
  analyze More.scripts_string_project = Raise AttributeError.
Proof.
  apply (scripts_of_wrong_type_abort_the_run More.scripts_string_project
           [(u "scripts", PStr (u "build"))] (PStr (u "build")));
    [reflexivity | reflexivity | discriminate].
Defined.

(** X12. When [pyproject.toml] has both a [tool.poetry.scripts] table and a
    [project.scripts] table, the step succeeds and sets the catalog to the
    keys of the first followed by the keys of the second, so a name declared
    in both is listed twice; every run that returns reports that catalog. *)
Theorem poetry_and_project_scripts_concatenated
    p toml tool poetry tool_scripts project project_scripts :
  read_toml (parser p) (u "pyproject.toml") = PDict toml →
  Py.dict_lookup (u "tool") toml = Some (PDict tool) →
  Py.dict_lookup (u "poetry") tool = Some (PDict poetry) →
  Py.dict_lookup (u "scripts") poetry = Some (PDict tool_scripts) →
  Py.dict_lookup (u "project") toml = Some (PDict project) →
  Py.dict_lookup (u "scripts") project = Some (PDict project_scripts) →
  (∀ self, _detect_poetry_scripts p self
           = Ok (set_poetry_scripts
                   (tool_scripts.*1 ++ project_scripts.*1) self))
  ∧ ∀ c s k, analyze p = Ok (c, s, k) →
             poetry_scripts c = tool_scripts.*1 ++ project_scripts.*1.
Proof.
  intros Htoml Htool Hpoetry Hts Hproject Hps.
  assert (∀ self, _detect_poetry_scripts p self
                  = Ok (set_poetry_scripts
                          (tool_scripts.*1 ++ project_scripts.*1) self))
    as Hstep.
  { intros self. unfold _detect_poetry_scripts, and_then. rewrite Htoml.
    assert (Py.truthy (PDict toml) = true) as ->
      by (destruct toml; [discriminate Htool | done]).
    simpl. rewrite Htool. simpl. rewrite Hpoetry. simpl. rewrite Hts. simpl.
    rewrite Hproject. simpl. by rewrite Hps. }
  split; [done|]. intros c s k. unfold analyze, detect_custom_scripts.
  intros H.
  apply bind_Ok in H as (s4 & Hdet & H).
  apply bind_Ok in Hdet as (s1 & E1 & Hdet).
  apply bind_Ok in Hdet as (s2 & E2 & Hdet).
  apply bind_Ok in Hdet as (s3 & E3 & E4).
  apply bind_Ok in H as (s5 & E5 & H).
  apply bind_Ok in H as (s6 & E6 & R6%Ok_inj).
  injection R6 as <- <- <-.
  rewrite Hstep in E3. apply Ok_inj in E3 as <-.
  apply untouched_shell in E4 as (_&_&U4&_).
  apply untouched_allowlist in E5 as (_&_&U5&_).
  apply untouched_defaults in E6 as (_&_&U6&_).
  rewrite U6, U5, U4 by done. done.
Qed.

Lemma poetry_and_project_scripts_concatenated_witness :
  poetry_scripts
    {| npm_scripts := []; make_targets := [];
       poetry_scripts := [u "cli"; u "cli"; u "srv"];
       shell_scripts := []; mise_tasks := [] |}
  = [u "cli"] ++ [u "cli"; u "srv"].
Proof.
  refine (proj2 (poetry_and_project_scripts_concatenated
                   More.dual_scripts_project More.dual_scripts
                   [(u "poetry", PDict [(u "scripts",
                                         PDict [(u "cli", PStr (u "a:main"))])])]
                   [(u "scripts", PDict [(u "cli", PStr (u "a:main"))])]
                   [(u "cli", PStr (u "a:main"))]
                   [(u "scripts", PDict [(u "cli", PStr (u "a:main"));
                                         (u "srv", PStr (u "a:serve"))])]
                   [(u "cli", PStr (u "a:main")); (u "srv", PStr (u "a:serve"))]
                   _ _ _ _ _ _)
                _ ∅ ∅ _); reflexivity.
Defined.

(** X13. The npm-family launchers are allowed together or not at all: in a
    run that returns, each of them is allowed exactly when the
    package-manager catalog is not empty. *)
Theorem launchers_iff_scripts p c s k :
  analyze p = Ok (c, s, k) →
  ∀ x, x ∈ launchers → (x ∈ s ↔ npm_scripts c ≠ []).
Proof.
  intros (s1 & s6 & Hnpm & F & [= <- <- <-])%analyze_steps x Hx.
  destruct (npm_step_init _ _ Hnpm) as (_ & Hsome & Hnone).
  rewrite (frame_npm _ _ F). split.
  - intros Hin Hnil. destruct (frame_new _ _ F x Hin) as [H1|Hlater].
    + rewrite (Hnone Hnil) in H1. by apply not_elem_of_empty in H1.
    + by apply (launcher_not_later x).
  - intros Hne. apply (frame_script _ _ F), (Hsome Hne), Hx.
Qed.

Lemma launchers_iff_scripts_witness :
  u "yarn" ∈ ({[ u "./run.sh" ]} : gset str) ↔ @nil str ≠ [].
Proof.
  apply (launchers_iff_scripts Sample.no_scripts_project
           {| npm_scripts := []; make_targets := []; poetry_scripts := [];
              shell_scripts := [u "run.sh"]; mise_tasks := [] |}
           {[ u "./run.sh" ]} ∅).
  - vm_compute. reflexivity.
  - apply (bool_decide_unpack _). vm_compute. exact I.
Defined.

(** ** The workspace defaults *)

(** X14. A validation command contributes its first word and nothing else:
    either the string is empty and nothing happens, or the custom command
    added is what the string starts with after its leading white space, up
    to the next white space. When the step returns, it never adds an empty
    command or one containing white space. *)
Theorem validation_command_adds_first_word cmd s s' :
  validation_command (PStr cmd) s = Ok s' →
  (cmd = [] ∧ s' = s)
  ∨ ∃ base rest,
      s' = add_custom_command base s
      ∧ PyStr.lstrip cmd = base ++ rest
      ∧ base ≠ [] ∧ spaceless base
      ∧ (rest = [] ∨ ∃ c r, rest = c :: r ∧ PyStr.is_space c = true).
Proof.
  unfold validation_command. intros H.
  apply bind_Ok in H as (base & Hbase & H).
  destruct cmd as [|c cmd].
  - apply Ok_inj in Hbase as <-. apply Ok_inj in H as <-. by left.
  - destruct (PyStr.split (c :: cmd)) as [|first more] eqn:E; [done|].
    apply Ok_inj in Hbase as ->.
    destruct (split_first _ _ _ E) as (rest & Hl & Hne & Hsp & Hrest).
    destruct base as [|x base]; [done|]. apply Ok_inj in H as <-.
    right. by exists (x :: base), rest.
Qed.

Lemma validation_command_adds_first_word_witness :
  (u "go build ./..." = [] ∧ add_custom_command (u "go") init = init)
  ∨ ∃ base rest,
      add_custom_command (u "go") init = add_custom_command base init
      ∧ PyStr.lstrip (u "go build ./...") = base ++ rest
      ∧ base ≠ [] ∧ spaceless base
      ∧ (rest = [] ∨ ∃ c r, rest = c :: r ∧ PyStr.is_space c = true).
Proof.
  apply (validation_command_adds_first_word (u "go build ./...") init).
  vm_compute. reflexivity.
Defined.

Lemma existsb_negb {A : Type} (f : A → bool) l :
  existsb (fun x => negb (f x)) l = negb (forallb f l).
Proof.
  induction l as [|x l IH]; simpl; [done|].
  rewrite IH. by destruct (f x), (forallb f l).
Qed.

Lemma validation_command_returns cmd s :
  (∃ s', validation_command cmd s = Ok s') ↔ digestible_command cmd.
Proof.
  destruct cmd as [| | | |[|c cmd]| |]; try (split; [done | by eexists]).
  unfold validation_command, digestible_command, PyStr.split.
  rewrite existsb_negb, negb_true_iff.
  destruct (PyStr.split_from [] (c :: cmd)) as [|first more] eqn:E.
  - apply split_from_nil in E as [_ ->]. split; [by intros [? ?] | done].
  - assert (forallb PyStr.is_space (c :: cmd) = false) as ->.
    { apply not_true_is_false. intros Hall.
      by rewrite (proj2 (split_from_nil [] (c :: cmd)) (conj eq_refl Hall))
        in E. }
    split; [done|]. intros _. simpl. destruct first; by eexists.
Qed.

Lemma for_each_returns {A S : Type} (P : A → Prop)
    (body : A → S → outcome S) l :
  (∀ x s, (∃ s', body x s = Ok s') ↔ P x) →
  ∀ s, (∃ s', for_each body l s = Ok s') ↔ Forall P l.
Proof.
  intros Hbody. induction l as [|x l IH]; intros s; simpl.
  - split; [done | by eexists].
  - rewrite Forall_cons. split.
    + intros (s' & H). apply bind_Ok in H as (s1 & Hx & Hl). split.
      * apply (Hbody x s). eauto.
      * apply (IH s1). eauto.
    + intros [(s1 & ->)%(Hbody x s) Hl]. simpl. by apply IH.
Qed.

Lemma validation_category_returns entry s :
  (∃ s', validation_category entry s = Ok s') ↔ digestible_category entry.2.
Proof.
  unfold validation_category, digestible_category.
  destruct entry.2; try (split; [done | by eexists]).
  apply for_each_returns, validation_command_returns.
Qed.

Lemma categories_return categories s :
  (∃ s', for_each validation_category categories s = Ok s')
  ↔ Forall digestible_category categories.*2.
Proof.
  rewrite Forall_fmap.
  apply (for_each_returns (fun entry => digestible_category entry.2)).
  intros entry s0. apply validation_category_returns.
Qed.

Lemma iter_returns v : (∃ l, Py.iter v = Ok l) ↔ iterable v.
Proof.
  destruct v; simpl; (split; [by intros [? ?] || done | done || by eexists]).
Qed.

(** X15. The defaults merge raises exactly on documents of the wrong shape:
    it returns if and only if the document is an object whose
    [custom_scripts] (if any) is an object with iterable [make_targets] and
    [mise_tasks] and whose [validation_commands] (if any) is an object in
    which no command string consists of white space only. *)
Theorem merge_returns_iff_well_shaped data s :
  (∃ s', merge_security_defaults data s = Ok s') ↔ well_shaped_defaults data.
Proof.
  unfold merge_security_defaults, well_shaped_defaults.
  destruct data as [| | | | | |d]; try (split; [by intros [? ?] | done]).
  simpl.
  destruct (Py.dict_lookup (u "custom_scripts") d) as [custom|]; simpl.
  - destruct custom as [| | | | | |custom];
      try (split; [by intros [? ?] | by intros [? ?]]).
    simpl. split.
    + intros (s' & H).
      apply bind_Ok in H as (visited & Hv & H).
      apply bind_Ok in H as (visited' & Hv' & H).
      apply (fun E => proj1 (iter_returns _) (ex_intro _ visited E)) in Hv.
      apply (fun E => proj1 (iter_returns _) (ex_intro _ visited' E)) in Hv'.
      split_and!.
      * by destruct (Py.dict_lookup (u "make_targets") custom).
      * by destruct (Py.dict_lookup (u "mise_tasks") custom).
      * destruct (Py.dict_lookup (u "validation_commands") d) as [v|];
          [|done]. simpl in H.
        apply bind_Ok in H as (categories & Hc & H).
        destruct v; try done. apply Ok_inj in Hc as <-.
        eapply categories_return. by eexists.
    + intros [[Ht Hm] Hv].
      assert (iterable (default (PList [])
                          (Py.dict_lookup (u "make_targets") custom)))
        as (visited & ->)%iter_returns
        by (by destruct (Py.dict_lookup (u "make_targets") custom)).
      assert (iterable (default (PList [])
                          (Py.dict_lookup (u "mise_tasks") custom)))
        as (visited' & ->)%iter_returns
        by (by destruct (Py.dict_lookup (u "mise_tasks") custom)).
      simpl.
      destruct (Py.dict_lookup (u "validation_commands") d) as [v|]; simpl;
        [|by eexists].
      destruct v; try done. simpl.
      by apply categories_return.
  - split.
    + intros (s' & H). split; [done|].
      destruct (Py.dict_lookup (u "validation_commands") d) as [v|];
        [|done]. simpl in H.
      apply bind_Ok in H as (categories & Hc & H).
      destruct v; try done. apply Ok_inj in Hc as <-.
      eapply categories_return. by eexists.
    + intros [_ Hv].
      destruct (Py.dict_lookup (u "validation_commands") d) as [v|]; simpl;
        [|by eexists].
      destruct v; try done. simpl.
      by apply categories_return.
Qed.

Lemma list_contains_strings t l :
  Py.list_contains (PStr t) (PStr <$> l) = bool_decide (t ∈ l).
Proof.
  unfold Py.list_contains. induction l as [|x l IH].
  - done.
  - rewrite fmap_cons.
    change (existsb (Py.eq (PStr t)) (PStr x :: (PStr <$> l)))
      with (PyStr.eqb t x || existsb (Py.eq (PStr t)) (PStr <$> l)).
    rewrite IH. unfold PyStr.eqb.
    destruct (decide (t = x)) as [->|Hne].
    + rewrite (bool_decide_eq_true_2 (x = x)) by done.
      rewrite (bool_decide_eq_true_2 (x ∈ x :: l)) by (by left). done.
    + rewrite (bool_decide_eq_false_2 (t = x)) by done. simpl.
      apply bool_decide_ext. rewrite elem_of_cons. naive_solver.
Qed.

Lemma merge_string_targets ts s old :
  make_targets (custom_scripts s) = PStr <$> old →
  ∃ new,
    make_targets (custom_scripts (fold_left merge_make_target (PStr <$> ts) s))
    = PStr <$> (old ++ new)
    ∧ (NoDup old → NoDup (old ++ new))
    ∧ ∀ t, t ∈ old ++ new ↔ t ∈ old ∨ t ∈ ts.
Proof.
  revert s old. induction ts as [|t ts IH]; intros s old Hold.
  - exists []. rewrite app_nil_r. split_and!; [done | done |].
    intros t. split; [auto|]. intros [?|Ht]; [done|].
    by apply elem_of_nil in Ht.
  - rewrite fmap_cons.
    change (fold_left merge_make_target (PStr t :: (PStr <$> ts)) s)
      with (fold_left merge_make_target (PStr <$> ts)
              (merge_make_target s (PStr t))).
    unfold merge_make_target at 2. rewrite Hold, list_contains_strings.
    destruct (decide (t ∈ old)) as [Hin|Hin].
    + rewrite bool_decide_eq_true_2 by done. simpl.
      destruct (IH s old Hold) as (new & Hnew & Hnd & Hmem).
      exists new. split_and!; [done | done |].
      intros t'. rewrite Hmem, elem_of_cons. naive_solver.
    + rewrite bool_decide_eq_false_2 by done. simpl.
      destruct (IH (set_make_targets ((PStr <$> old) ++ [PStr t]) s)
                  (old ++ [t])) as (new & Hnew & Hnd & Hmem).
      { simpl. by rewrite fmap_app. }
      exists (t :: new).
      assert (old ++ t :: new = (old ++ [t]) ++ new) as ->
        by (by rewrite <- app_assoc).
      split_and!; [done| |].
      * intros Hold'. apply Hnd. apply NoDup_app.
        split_and!; [done| |apply NoDup_singleton].
        intros x Hx ->%list_elem_of_singleton. done.
      * intros t'. rewrite Hmem.
        rewrite elem_of_app, list_elem_of_singleton, elem_of_cons.
        naive_solver.
Qed.

Lemma merged_catalogs_targets targets visited tasks visited' s :
  make_targets (custom_scripts
                  (merged_catalogs targets visited tasks visited' s))
  = make_targets (custom_scripts (fold_left merge_make_target visited s)).
Proof.
  unfold merged_catalogs. cbv zeta.
  set (s1 := fold_left merge_make_target visited s).
  set (s2 := if Py.truthy targets
             then add_script_command (u "make") s1 else s1).
  assert (make_targets (custom_scripts s2) = make_targets (custom_scripts s1))
    as <- by (unfold s2; by destruct (Py.truthy targets)).
  set (s3 := fold_left merge_mise_task visited' s2).
  assert (make_targets (custom_scripts s3) = make_targets (custom_scripts s2))
    as <-.
  { apply (fold_left_invariant
             (fun s0 => make_targets (custom_scripts s0)
                        = make_targets (custom_scripts s2))); [|done].
    intros s0 t H0. unfold merge_mise_task. by destruct (negb _). }
  by destruct (Py.truthy tasks).
Qed.

(** X16. When the defaults file lists its make targets as strings, merging
    them is an ordered union: the targets already in the catalog keep their
    places, the new ones follow, a catalog without repeats stays without
    repeats, the result holds exactly the old targets and the listed ones,
    and [make] is allowed as soon as one target is listed. *)
Theorem default_targets_are_united data custom ts old s s' :
  Py.get data (u "custom_scripts") (PDict []) = Ok custom →
  Py.get custom (u "make_targets") (PList []) = Ok (PList (PStr <$> ts)) →
  make_targets (custom_scripts s) = PStr <$> old →
  merge_security_defaults data s = Ok s' →
  ∃ new,
    make_targets (custom_scripts s') = PStr <$> (old ++ new)
    ∧ (NoDup old → NoDup (old ++ new))
    ∧ (∀ t, t ∈ old ++ new ↔ t ∈ old ∨ t ∈ ts)
    ∧ (ts ≠ [] → u "make" ∈ script_commands s').
Proof.
  intros Hcustom Htargets Hold Hrun.
  pose proof (frame_merge_defaults _ _ _ Hrun) as F.
  apply merge_shape in Hrun
    as (custom' & targets & visited & tasks & visited' & Hc & Ht & Hv & _ & _
        & U).
  rewrite Hcustom in Hc. apply Ok_inj in Hc as <-.
  rewrite Htargets in Ht. apply Ok_inj in Ht as <-.
  apply Ok_inj in Hv as <-.
  destruct (merge_string_targets ts s old Hold) as (new & Hnew & Hnd & Hmem).
  destruct U as (_ & Umt & _ & _ & _ & Usc & _).
  exists new. split_and!; [|done|done|].
  - by rewrite (Umt eq_refl), merged_catalogs_targets.
  - intros Hne. rewrite (Usc eq_refl). unfold merged_catalogs. cbv zeta.
    assert (Py.truthy (PList (PStr <$> ts)) = true) as ->
      by (by destruct ts).
    destruct (Py.truthy tasks); simpl.
    + apply elem_of_union_r.
      assert (∀ l s0, u "make" ∈ script_commands s0 →
                      u "make" ∈ script_commands
                                   (fold_left merge_mise_task l s0)) as Hkeep.
      { intros l s0 H0. apply fold_left_invariant; [|done].
        intros s1 t H1. unfold merge_mise_task. by destruct (negb _). }
      apply Hkeep. simpl. apply elem_of_union_l. by apply elem_of_singleton.
    + apply fold_left_invariant.
      * intros s1 t H1. unfold merge_mise_task. by destruct (negb _).
      * simpl. apply elem_of_union_l. by apply elem_of_singleton.
Qed.

Lemma default_targets_are_united_witness :
  ∃ new,
    make_targets (custom_scripts More.merged)
    = PStr <$> ([u "build"] ++ new)
    ∧ (NoDup [u "build"] → NoDup ([u "build"] ++ new))
    ∧ (∀ t, t ∈ [u "build"] ++ new
            ↔ t ∈ [u "build"] ∨ t ∈ [u "build"; u "deploy"])
    ∧ ([u "build"; u "deploy"] ≠ [] →
       u "make" ∈ script_commands More.merged).
Proof.
  apply (default_targets_are_united Sample.workspace_defaults
           (PDict [(u "make_targets",
                    PList [PStr (u "build"); PStr (u "deploy")]);
                   (u "mise_tasks", PList [PStr (u "mise run all")])])
           [u "build"; u "deploy"] [u "build"] More.gathered More.merged);
    reflexivity.
Defined.

Lemma merge_targets_prefix visited s :
  ∃ extra,
    make_targets (custom_scripts (fold_left merge_make_target visited s))
    = make_targets (custom_scripts s) ++ extra.
Proof.
  apply (fold_left_invariant
           (fun s0 => ∃ extra, make_targets (custom_scripts s0)
                               = make_targets (custom_scripts s) ++ extra)).
  - intros s0 t [extra H0]. unfold merge_make_target.
    destruct (negb _); [|by exists extra].
    exists (extra ++ [t]). simpl. by rewrite H0, <- app_assoc.
  - exists []. by rewrite app_nil_r.
Qed.

Lemma defaults_targets_prefix p s s' :
  _load_security_defaults p s = Ok s' →
  ∃ extra,
    make_targets (custom_scripts s')
    = make_targets (custom_scripts s) ++ extra.
Proof.
  unfold _load_security_defaults.
  destruct (security_defaults p) as [| | | | | | |data];
    try (intros <-%Ok_inj; exists []; by rewrite app_nil_r); try done.
  intros (custom & targets & visited & tasks & visited' & _ & _ & _ & _ & _
          & U)%merge_shape.
  destruct U as (_ & Umt & _). rewrite (Umt eq_refl), merged_catalogs_targets.
  apply merge_targets_prefix.
Qed.

(** Before the defaults file is read there are no mise tasks. *)
Lemma gather_mise_tasks p g :
  gather p = Ok g → mise_tasks (custom_scripts g) = [].
Proof.
  unfold gather, detect_custom_scripts. intros H.
  apply bind_Ok in H as (s4 & Hdet & E5).
  apply bind_Ok in Hdet as (s1 & E1 & Hdet).
  apply bind_Ok in Hdet as (s2 & E2 & Hdet).
  apply bind_Ok in Hdet as (s3 & E3 & E4).
  apply untouched_npm in E1 as (_&_&_&_&U1&_).
  apply untouched_makefile in E2 as (_&_&_&_&U2&_).
  apply untouched_poetry in E3 as (_&_&_&_&U3&_).
  apply untouched_shell in E4 as (_&_&_&_&U4&_).
  apply untouched_allowlist in E5 as (_&_&_&_&U5&_).
  by rewrite (U5 eq_refl), (U4 eq_refl), (U3 eq_refl), (U2 eq_refl),
    (U1 eq_refl).
Qed.

(** X17. The defaults file cannot rewrite what the manifests declared: a run
    that returns with it reports the same package-manager, task-runner and
    shell-script catalogs as the run without it, and the build targets
    detected without it come first, in the same order. *)
Theorem defaults_extend_detected_catalogs p d c s k :
  analyze (with_defaults p d) = Ok (c, s, k) →
  ∃ c0 s0 k0,
    analyze (with_defaults p DefaultsMissing) = Ok (c0, s0, k0)
    ∧ npm_scripts c = npm_scripts c0
    ∧ poetry_scripts c = poetry_scripts c0
    ∧ shell_scripts c = shell_scripts c0
    ∧ ∃ extra, make_targets c = make_targets c0 ++ extra.
Proof.
  rewrite !analyze_gather, !gather_with_defaults. intros H.
  apply bind_Ok in H as (g & -> & H).
  apply bind_Ok in H as (s6 & Hd & R%Ok_inj).
  injection R as <- <- <-.
  exists (custom_scripts g), (script_commands g), (custom_commands g).
  split; [done|].
  destruct (defaults_targets_prefix _ _ _ Hd) as [extra Hextra].
  apply untouched_defaults in Hd as (Un & _ & Up & Us & _).
  split_and!; [by apply Un | by apply Up | by apply Us | by exists extra].
Qed.

Lemma defaults_extend_detected_catalogs_witness :
  ∃ c0 s0 k0,
    analyze (with_defaults Sample.allowlist_project DefaultsMissing)
    = Ok (c0, s0, k0)
    ∧ npm_scripts (custom_scripts More.merged) = npm_scripts c0
    ∧ poetry_scripts (custom_scripts More.merged) = poetry_scripts c0
    ∧ shell_scripts (custom_scripts More.merged) = shell_scripts c0
    ∧ ∃ extra,
        make_targets (custom_scripts More.merged) = make_targets c0 ++ extra.
Proof.
  apply (defaults_extend_detected_catalogs Sample.allowlist_project
           (DefaultsData Sample.workspace_defaults)
           (custom_scripts More.merged)
           (script_commands More.merged) (custom_commands More.merged)).
  vm_compute. reflexivity.
Defined.

(** X18. [mise] comes from the defaults file only: when no defaults document
    is loaded (the file is missing or unreadable), a run that returns reports
    no mise tasks and does not allow [mise]. *)
Theorem mise_only_through_defaults p c s k :
  (∀ data, security_defaults p ≠ DefaultsData data) →
  analyze p = Ok (c, s, k) →
  (u "mise" ∉ s) ∧ mise_tasks c = [].
Proof.
  intros Hnone. rewrite analyze_gather. intros H.
  apply bind_Ok in H as (g & Hg & H).
  apply bind_Ok in H as (s6 & Hd & R%Ok_inj).
  injection R as <- <- <-.
  assert (s6 = g) as ->.
  { revert Hd. unfold _load_security_defaults.
    destruct (security_defaults p) as [| | | | | | |data];
      try (by intros [= ->]).
    by destruct (Hnone data). }
  split; [|by apply (gather_mise_tasks p)].
  intros Hin.
  refine (proj1 (respects_gather p (fun x => x ≠ u "mise") (fun _ => True)
                   _ _ _ _ g Hg) _ Hin eq_refl); try done.
  intros x Hx ->. apply (launcher_not_later (u "mise")); [done|].
  right. by left.
Qed.

Lemma mise_only_through_defaults_witness :
  (u "mise" ∉ ({[ u "make" ]} : gset str))
  ∧ mise_tasks (custom_scripts More.gathered) = [].
Proof.
  apply (mise_only_through_defaults Sample.allowlist_project
           (custom_scripts More.gathered) {[ u "make" ]}
           (custom_commands More.gathered)).
  - discriminate.
  - vm_compute. reflexivity.
Defined.

(** ** [make] and [mise] follow their catalogs *)

Lemma tools_same s s' :
  (u "make" ∈ script_commands s' ↔ u "make" ∈ script_commands s) →
  (u "mise" ∈ script_commands s' ↔ u "mise" ∈ script_commands s) →
  make_targets (custom_scripts s') = make_targets (custom_scripts s) →
  mise_tasks (custom_scripts s') = mise_tasks (custom_scripts s) →
  tools_match_catalogs s → tools_match_catalogs s'.
Proof.
  unfold tools_match_catalogs. intros -> -> -> ->. done.
Qed.

Lemma tools_untouched may s s' :
  in_make may = false → in_mise may = false → in_script may = false →
  untouched may s s' → tools_match_catalogs s → tools_match_catalogs s'.
Proof.
  intros Hm Hi Hs (_ & Umt & _ & _ & Umi & Usc & _).
  apply tools_same; rewrite ?(Usc Hs); auto.
Qed.

Lemma tools_after_make_loop s s1 (b : bool) :
  script_commands s1 = script_commands s →
  mise_tasks (custom_scripts s1) = mise_tasks (custom_scripts s) →
  (make_targets (custom_scripts s) ≠ [] →
   make_targets (custom_scripts s1) ≠ []) →
  (b = true → make_targets (custom_scripts s1) ≠ []) →
  (b = false → make_targets (custom_scripts s1) ≠ [] →
   make_targets (custom_scripts s) ≠ []) →
  tools_match_catalogs s →
  tools_match_catalogs (if b then add_script_command (u "make") s1 else s1).
Proof.
  unfold tools_match_catalogs. intros Hsc Hmi Hgrow Htrue Hfalse [Kmake Kmise].
  destruct b; simpl; rewrite ?Hsc, ?Hmi.
  - rewrite !elem_of_union, !elem_of_singleton. split.
    + split; [intros _; by apply Htrue | by left].
    + rewrite <- Kmise. split; [|by right]. by intros [[=]|?].
  - split; [|done]. rewrite Kmake. split; [done|]. by apply Hfalse.
Qed.

Lemma tools_after_mise_loop s s1 (b : bool) :
  script_commands s1 = script_commands s →
  make_targets (custom_scripts s1) = make_targets (custom_scripts s) →
  (mise_tasks (custom_scripts s) ≠ [] →
   mise_tasks (custom_scripts s1) ≠ []) →
  (b = true → mise_tasks (custom_scripts s1) ≠ []) →
  (b = false → mise_tasks (custom_scripts s1) ≠ [] →
   mise_tasks (custom_scripts s) ≠ []) →
  tools_match_catalogs s →
  tools_match_catalogs (if b then add_script_command (u "mise") s1 else s1).
Proof.
  unfold tools_match_catalogs. intros Hsc Hmt Hgrow Htrue Hfalse [Kmake Kmise].
  destruct b; simpl; rewrite ?Hsc, ?Hmt.
  - rewrite !elem_of_union, !elem_of_singleton. split.
    + rewrite <- Kmake. split; [|by right]. by intros [[=]|?].
    + split; [intros _; by apply Htrue | by left].
  - split; [done|]. rewrite Kmise. split; [done|]. by apply Hfalse.
Qed.

Lemma fold_launchers_other {A : Type} (l : list A) s x :
  x ∉ launchers →
  x ∈ script_commands (fold_left (fun self _ => add_launchers self) l s)
  ↔ x ∈ script_commands s.
Proof.
  intros Hx. revert s. induction l as [|y l IH]; intros s; [done|].
  change (fold_left (fun self (_ : A) => add_launchers self) (y :: l) s)
    with (fold_left (fun self (_ : A) => add_launchers self) l
            (add_launchers s)).
  rewrite IH. unfold add_launchers, add_script_command.
  cbn [script_commands]. unfold launchers in Hx. clear IH. set_solver.
Qed.

Lemma tools_npm p s s' :
  _detect_npm_scripts p s = Ok s' →
  tools_match_catalogs s → tools_match_catalogs s'.
Proof.
  intros H. pose proof (untouched_npm _ _ _ H) as (_ & Umt & _ & _ & Umi & _).
  assert (∀ x, x ∉ launchers →
               x ∈ script_commands s' ↔ x ∈ script_commands s) as Hsc.
  { intros x Hx. revert H. unfold _detect_npm_scripts. intros H.
    apply bind_Ok in H as (has & _ & H). destruct has.
    - apply bind_Ok in H as (scripts & _ & H).
      apply bind_Ok in H as (names & _ & H). apply Ok_inj in H as <-.
      by rewrite fold_launchers_other.
    - by apply Ok_inj in H as <-. }
  apply tools_same; auto; apply Hsc; intros Hin;
    apply (launcher_not_later _ Hin); [by left | right; by left].
Qed.

Lemma tools_makefile p s s' :
  _detect_makefile_targets p s = Ok s' →
  tools_match_catalogs s → tools_match_catalogs s'.
Proof.
  unfold _detect_makefile_targets. intros H K.
  destruct (negb _); [by apply Ok_inj in H as <-|].
  destruct (read_text _ _) as [[|c content]|];
    try (by apply Ok_inj in H as <-).
  set (s1 := fold_left makefile_line (PyStr.splitlines (c :: content)) s)
    in *.
  destruct (makefile_lines_same (PyStr.splitlines (c :: content)) s)
    as (_ & Hsc & _ & Hnil).
  assert (mise_tasks (custom_scripts s1) = mise_tasks (custom_scripts s))
    as Hmi.
  { apply (fold_left_invariant
             (fun s0 => mise_tasks (custom_scripts s0)
                        = mise_tasks (custom_scripts s))); [|done].
    intros s0 line H0. unfold makefile_line.
    destruct (match_target line); [|done]. by destruct (negb _). }
  pose proof (tools_after_make_loop s s1
                (match make_targets (custom_scripts s1) with
                 | [] => false | _ => true end) Hsc Hmi) as Hloop.
  destruct (make_targets (custom_scripts s1)) eqn:E;
    apply Ok_inj in H as <-; apply Hloop; try done; rewrite ?E; try done.
  all: intros Hne Hs1; by apply Hne, Hnil.
Qed.

Lemma tools_shell p s s' :
  _detect_shell_scripts p s = Ok s' →
  tools_match_catalogs s → tools_match_catalogs s'.
Proof.
  intros H. destruct (shell_step_facts _ _ _ H) as [_ Hsc].
  apply untouched_shell in H as (_ & Umt & _ & _ & Umi & _).
  apply tools_same; auto; rewrite Hsc; (split; [|by left]);
    by intros [?|(n & _ & [=])].
Qed.

Lemma merge_targets_nonempty visited s :
  visited ≠ [] →
  make_targets (custom_scripts (fold_left merge_make_target visited s)) ≠ [].
Proof.
  destruct visited as [|t visited]; [done|]. intros _ Hnil.
  change (fold_left merge_make_target (t :: visited) s)
    with (fold_left merge_make_target visited (merge_make_target s t))
    in Hnil.
  destruct (merge_targets_same visited (merge_make_target s t))
    as (_ & _ & _ & Hback).
  apply Hback in Hnil. revert Hnil. unfold merge_make_target.
  destruct (Py.list_contains t (make_targets (custom_scripts s))) eqn:E;
    simpl.
  - intros Hnil. by rewrite Hnil in E.
  - by intros [_ ?]%app_eq_nil.
Qed.

Lemma merge_tasks_facts visited s :
  let s1 := fold_left merge_mise_task visited s in
  script_commands s1 = script_commands s
  ∧ make_targets (custom_scripts s1) = make_targets (custom_scripts s)
  ∧ (mise_tasks (custom_scripts s1) = [] →
     mise_tasks (custom_scripts s) = []).
Proof.
  simpl. apply (fold_left_invariant
                  (fun s0 =>
                     script_commands s0 = script_commands s
                     ∧ make_targets (custom_scripts s0)
                       = make_targets (custom_scripts s)
                     ∧ (mise_tasks (custom_scripts s0) = [] →
                        mise_tasks (custom_scripts s) = []))); [|done].
  intros s0 t (Hsc & Hmt & Hnil). unfold merge_mise_task.
  destruct (negb _); [|done]. simpl. split_and!; [done | done |].
  by intros [_ ?]%app_eq_nil.
Qed.

Lemma merge_tasks_nonempty visited s :
  visited ≠ [] →
  mise_tasks (custom_scripts (fold_left merge_mise_task visited s)) ≠ [].
Proof.
  destruct visited as [|t visited]; [done|]. intros _ Hnil.
  change (fold_left merge_mise_task (t :: visited) s)
    with (fold_left merge_mise_task visited (merge_mise_task s t)) in Hnil.
  destruct (merge_tasks_facts visited (merge_mise_task s t))
    as (_ & _ & Hback).
  apply Hback in Hnil. revert Hnil. unfold merge_mise_task.
  destruct (Py.list_contains t (mise_tasks (custom_scripts s))) eqn:E; simpl.
  - intros Hnil. by rewrite Hnil in E.
  - by intros [_ ?]%app_eq_nil.
Qed.

Lemma truthy_iter v visited :
  Py.iter v = Ok visited → Py.truthy v = false → visited = [].
Proof.
  destruct visited as [|t visited]; [done|]. intros Hit Hfalse.
  by rewrite (iter_truthy _ _ Hit) in Hfalse.
Qed.

Lemma iter_nonempty v visited :
  Py.iter v = Ok visited → Py.truthy v = true → visited ≠ [].
Proof.
  destruct v as [| | | |[]|[]|[]]; simpl; intros [= <-]; done.
Qed.

Lemma tools_merged_catalogs targets visited tasks visited' s :
  Py.iter targets = Ok visited → Py.iter tasks = Ok visited' →
  tools_match_catalogs s →
  tools_match_catalogs (merged_catalogs targets visited tasks visited' s).
Proof.
  intros Hv Hv' K. unfold merged_catalogs. cbv zeta.
  set (s1 := fold_left merge_make_target visited s).
  set (s2 := if Py.truthy targets
             then add_script_command (u "make") s1 else s1).
  assert (tools_match_catalogs s2) as K2.
  { destruct (merge_targets_same visited s) as (_ & Hsc & _ & Hnil).
    apply (tools_after_make_loop s s1); try done.
    - apply (fold_left_invariant
               (fun s0 => mise_tasks (custom_scripts s0)
                          = mise_tasks (custom_scripts s))); [|done].
      intros s0 t H0. unfold merge_make_target. by destruct (negb _).
    - intros Hne Hs1. by apply Hne, Hnil.
    - intros Ht. by apply merge_targets_nonempty, (iter_nonempty targets).
    - intros Hf. unfold s1. by rewrite (truthy_iter _ _ Hv Hf). }
  destruct (merge_tasks_facts visited' s2) as (Hsc & Hmt & Hnil).
  apply (tools_after_mise_loop s2); try done.
  - intros Hne Hs3. by apply Hne, Hnil.
  - intros Ht. by apply merge_tasks_nonempty, (iter_nonempty tasks).
  - intros Hf. by rewrite (truthy_iter _ _ Hv' Hf).
Qed.

Lemma tools_defaults p s s' :
  _load_security_defaults p s = Ok s' →
  tools_match_catalogs s → tools_match_catalogs s'.
Proof.
  unfold _load_security_defaults.
  destruct (security_defaults p) as [| | | | | | |data];
    try (by intros <-%Ok_inj); try done.
  intros (custom & targets & visited & tasks & visited' & _ & _ & Hv & _ & Hv'
          & U)%merge_shape K.
  apply (tools_untouched only_custom _ _ eq_refl eq_refl eq_refl U).
  by apply tools_merged_catalogs.
Qed.

(** X19. In a run that returns, [make] is allowed exactly when the
    build-target catalog is not empty, and [mise] exactly when the mise-task
    catalog is not empty. *)
Theorem make_and_mise_follow_their_catalogs p c s k :
  analyze p = Ok (c, s, k) →
  (u "make" ∈ s ↔ make_targets c ≠ [])
  ∧ (u "mise" ∈ s ↔ mise_tasks c ≠ []).
Proof.
  unfold analyze, detect_custom_scripts. intros H.
  apply bind_Ok in H as (s4 & Hdet & H).
  apply bind_Ok in Hdet as (s1 & E1 & Hdet).
  apply bind_Ok in Hdet as (s2 & E2 & Hdet).
  apply bind_Ok in Hdet as (s3 & E3 & E4).
  apply bind_Ok in H as (s5 & E5 & H).
  apply bind_Ok in H as (s6 & E6 & R6%Ok_inj).
  injection R6 as <- <- <-.
  apply (tools_defaults _ _ _ E6).
  apply (tools_untouched only_custom _ _ eq_refl eq_refl eq_refl
           (untouched_allowlist _ _ _ E5)).
  apply (tools_shell _ _ _ E4).
  apply (tools_untouched only_poetry _ _ eq_refl eq_refl eq_refl
           (untouched_poetry _ _ _ E3)).
  apply (tools_makefile _ _ _ E2), (tools_npm _ _ _ E1).
  split; (split; [by intros ?%not_elem_of_empty | done]).
Qed.

Lemma make_and_mise_follow_their_catalogs_witness :
  (u "make" ∈ script_commands More.merged
   ↔ make_targets (custom_scripts More.merged) ≠ [])
  ∧ (u "mise" ∈ script_commands More.merged
     ↔ mise_tasks (custom_scripts More.merged) ≠ []).
Proof.
  apply (make_and_mise_follow_their_catalogs
           (with_defaults Sample.allowlist_project
              (DefaultsData Sample.workspace_defaults))
           (custom_scripts More.merged) (script_commands More.merged)
           (custom_commands More.merged)).
  vm_compute. reflexivity.
Defined.
